(** * Industrial IoT OPC UA monitor: the acquisition engine of [opcua_server.py]

    A shallow embedding of [SensorReader] (the three sensor reads) and of
    [OPCUAServer.update_values] (one acquire / derive / publish cycle).

    - Python [float] is IEEE 754 binary64: Rocq's primitive [float], with
      its own [+], [-], [*], [/], [<=?] and [<?].  [round(x, 2)] is
      modelled on the exact value of the float ([round2]).
    - Status codes are the Python [int]s 0..3 the code returns.
    - The numbers the drivers report are taken to be floats already, so
      the code's [float(...)] conversions are the identity.
    - Device accesses, the clock and the error log are effects: a small
      state and exception monad [M] threads two counters and the trace of
      the accesses made; what the outside world answers is given by a
      [hardware] record.  Only exceptions derived from [Exception] are
      modelled; [_logger.info] lines leave no trace.
    - The two polling loops of [read_ultrasonic] are [while] loops: they
      are defined by recursion on a fuel argument, and running out of
      fuel ([None]) stands for a loop that has not finished yet.
    - [update_values] returns the values it writes, one per node; the
      writes themselves belong to the OPC UA library and are taken to
      succeed.  [write_values] carries them out on a model of
      [self.nodes], the dictionary that [init_server] fills.
    - Of [run], the main loop is modelled turn by turn; the life cycle of
      the asyncua server and the handling of an operator interrupt are
      not. *)

From Stdlib Require Import ZArith Floats Bool List String Ascii Lia.
Import ListNotations.

Set Warnings "-inexact-float".

(** ** Python values *)

Module Py.

(** The exceptions a driver call can raise.  All of them are subclasses of
    [Exception]; [NotImplementedError] is a subclass of [RuntimeError]. *)
Inductive exn : Type :=
| RuntimeError
| NotImplementedError
| OSError
| ValueError
| TypeError.

(** [isinstance(e, RuntimeError)], which is what [except RuntimeError] tests. *)
Definition isinstance_RuntimeError (e : exn) : bool :=
  match e with
  | RuntimeError | NotImplementedError => true
  | OSError | ValueError | TypeError => false
  end.

(** The outcome of an expression: a value or a raised exception. *)
Inductive result (A : Type) : Type :=
| Val (a : A)
| Raise (e : exn).
Arguments Val {A} a.
Arguments Raise {A} e.

(** *** [round(x, 2)] on floats

    CPython rounds the exact binary value of [x] to two decimal places
    (ties to even) and returns the double nearest to that decimal; NaN,
    infinities and floats that are already integers are returned as they
    are. *)

Definition round_half_even_div (n d : Z) : Z :=
  let q := (n / d)%Z in
  let r := (n mod d)%Z in
  match (2 * r ?= d)%Z with
  | Lt => q
  | Gt => (q + 1)%Z
  | Eq => if Z.even q then q else (q + 1)%Z
  end.

Definition SF_of_Z (s : bool) (n : Z) : spec_float :=
  match n with
  | Zpos p => S754_finite s p 0
  | _ => S754_zero s
  end.

Definition round2 (x : float) : float :=
  match Prim2SF x with
  | S754_finite s m e =>
      if (0 <=? e)%Z then x
      else
        let hundredths := round_half_even_div (Zpos m * 100) (2 ^ (- e)) in
        SF2Prim (SFdiv prec emax (SF_of_Z s hundredths) (S754_finite false 100 0))
  | _ => x
  end.

(** *** [datetime.strftime("%Y-%m-%d %H:%M:%S")]

    The year is printed on four digits, which is what every platform
    prints for the years 1000 to 9999; [datetime.now()] returns no other
    year. *)

Record datetime : Type := {
  year : Z; month : Z; day : Z; hour : Z; minute : Z; second : Z
}.

Definition digit (n : Z) : ascii := ascii_of_nat (48 + Z.to_nat (n mod 10)).

(** The last [width] decimal digits of [n], zero padded. *)
Fixpoint zfill (width : nat) (n : Z) : string :=
  match width with
  | O => EmptyString
  | S w => (zfill w (n / 10) ++ String (digit n) EmptyString)%string
  end.

Definition strftime (d : datetime) : string :=
  (zfill 4 (year d) ++ "-" ++ zfill 2 (month d) ++ "-" ++ zfill 2 (day d)
   ++ " " ++ zfill 2 (hour d) ++ ":" ++ zfill 2 (minute d) ++ ":"
   ++ zfill 2 (second d))%string.

End Py.
Export Py.

(** ** Hardware and effects *)

(** GPIO Pin Configuration *)
Definition DHT_PIN : Z := 4.
Definition TRIG_PIN : Z := 23.
Definition ECHO_PIN : Z := 24.

(** Update interval (seconds) *)
Definition UPDATE_INTERVAL : float := 2.0%float.

(** Status codes, as the comments of the code and section 6 of the
    specification name them. *)
Definition Ok : Z := 0.
Definition ReadError : Z := 1.
Definition SensorUnavailable : Z := 2.
Definition OutOfRange : Z := 3.

(** Driver objects; what they answer is in [hardware]. *)
Record DHT11 : Type := { dht_pin : Z }.
Record INA219 : Type := { i2c_scl_sda : unit }.

(** What the outside world answers during one cycle.  The DHT11 and the
    INA219 are read once per cycle, so each of their properties has one
    outcome; the echo line and the clock are sampled repeatedly, so they
    are indexed by the number of samples taken before. *)
Record hardware : Type := {
  (* construction of the drivers in [SensorReader.__init__] *)
  new_DHT11 : result DHT11;
  new_INA219 : result INA219;
  setup_GPIO : result unit;
  (* [dht_sensor.temperature], [dht_sensor.humidity]; [None] is Python's None *)
  dht_temperature : result (option float);
  dht_humidity : result (option float);
  (* [ina219.bus_voltage] (V), [ina219.current] (mA), [ina219.power] (mW) *)
  ina_bus_voltage : result float;
  ina_current : result float;
  ina_power : result float;
  (* [GPIO.output(TRIG_PIN, level)] *)
  gpio_output : bool -> result unit;
  (* the k-th [GPIO.input(ECHO_PIN)]: [true] is 1 (high), [false] is 0 (low) *)
  gpio_input : nat -> result bool;
  (* what the k-th [time.time()] returns *)
  wall_clock : nat -> float;
  (* [datetime.now()] *)
  datetime_now : datetime
}.

(** Every access to the outside world, for the trace. *)
Inductive event : Type :=
| NewDHT11
| NewINA219
| SetupGPIO
| DhtTemperature
| DhtHumidity
| InaBusVoltage
| InaCurrent
| InaPower
| GpioOutput (pin : Z) (level : bool)
| GpioInput (pin : Z)
| TimeSleep (seconds : float)
| TimeTime
| DatetimeNow
| LoggerError (msg : string) (e : exn).

(** [n_input] and [n_time] count the echo samples and the clock readings
    taken so far; [trace] lists the accesses, most recent first. *)
Record state : Type := {
  n_input : nat;
  n_time : nat;
  trace : list event
}.

Definition initial_state : state := {| n_input := 0; n_time := 0; trace := [] |}.

Definition log (ev : event) (st : state) : state :=
  {| n_input := n_input st; n_time := n_time st; trace := ev :: trace st |}.

(** A computation: from a state to an outcome and a state, or [None] when
    a loop ran out of fuel. *)
Definition M (A : Type) : Type := state -> option (result A * state).

Definition ret {A} (a : A) : M A := fun st => Some (Val a, st).

Definition bind {A B} (m : M A) (f : A -> M B) : M B := fun st =>
  match m st with
  | None => None
  | Some (Val a, st') => f a st'
  | Some (Raise e, st') => Some (Raise e, st')
  end.

(** [try: body  except Exception as e: handler e] *)
Definition try_except {A} (body : M A) (handler : exn -> M A) : M A := fun st =>
  match body st with
  | Some (Raise e, st') => handler e st'
  | other => other
  end.

Definition out_of_fuel {A} : M A := fun _ => None.

(** An access whose outcome does not depend on the counters. *)
Definition access {A} (ev : event) (r : result A) : M A := fun st =>
  Some (r, log ev st).

Declare Scope monad_scope.
Delimit Scope monad_scope with monad.
Notation "x <- m ;; k" := (bind m (fun x => k))
  (at level 61, m at next level, right associativity) : monad_scope.
Notation "' pat <- m ;; k" := (bind m (fun x => match x with pat => k end))
  (at level 61, pat pattern, m at next level, right associativity) : monad_scope.
Notation "m ;; k" := (bind m (fun _ => k))
  (at level 61, right associativity) : monad_scope.
Open Scope monad_scope.

Definition GPIO_output (hw : hardware) (pin : Z) (level : bool) : M unit :=
  access (GpioOutput pin level) (gpio_output hw level).

(** The state after one more echo sample, and after one more clock reading. *)
Definition sampled (pin : Z) (st : state) : state :=
  {| n_input := S (n_input st); n_time := n_time st;
     trace := GpioInput pin :: trace st |}.

Definition clocked (st : state) : state :=
  {| n_input := n_input st; n_time := S (n_time st);
     trace := TimeTime :: trace st |}.

Definition GPIO_input (hw : hardware) (pin : Z) : M bool := fun st =>
  Some (gpio_input hw (n_input st), sampled pin st).

Definition time_sleep (seconds : float) : M unit :=
  access (TimeSleep seconds) (Val tt).

Definition time_time (hw : hardware) : M float := fun st =>
  Some (Val (wall_clock hw (n_time st)), clocked st).

Definition _logger_error (msg : string) (e : exn) : M unit :=
  access (LoggerError msg e) (Val tt).

(** ** class SensorReader *)

Module SensorReader.

Record t : Type := {
  dht_sensor : option DHT11;
  ina219 : option INA219;
  ultrasonic_enabled : bool
}.

(** [SensorReader.__init__]: each driver is constructed in its own [try];
    a failure is logged and recorded in the field.  The statements of a
    [try] block (the five GPIO calls and the settling sleep, for the
    HC-SR04) count as one access with one outcome. *)
Definition __init__ (hw : hardware) : M t :=
  dht <- try_except
           (d <- access NewDHT11 (new_DHT11 hw) ;; ret (Some d))
           (fun e => _logger_error "DHT11 initialization failed" e ;; ret None) ;;
  ina <- try_except
           (d <- access NewINA219 (new_INA219 hw) ;; ret (Some d))
           (fun e => _logger_error "INA219 initialization failed" e ;; ret None) ;;
  us <- try_except
          (access SetupGPIO (setup_GPIO hw) ;; ret true)
          (fun e => _logger_error "HC-SR04 initialization failed" e ;; ret false) ;;
  ret {| dht_sensor := dht; ina219 := ina; ultrasonic_enabled := us |}.

Local Open Scope float_scope.

(** The [try] block and the [except] clauses of [read_dht11]. *)
Definition read_dht11_try (hw : hardware) : M (float * float * Z) :=
  temperature_c <- access DhtTemperature (dht_temperature hw) ;;
  humidity <- access DhtHumidity (dht_humidity hw) ;;
  match temperature_c, humidity with
  | Some temperature_c, Some humidity =>
      ret (temperature_c, humidity, 0%Z)       (* Status 0 = OK *)
  | _, _ => ret (0.0, 0.0, 1%Z)                 (* Status 1 = Read error *)
  end.

Definition read_dht11_except (e : exn) : M (float * float * Z) :=
  if isinstance_RuntimeError e then
    (* DHT11 timeout - common, not critical *)
    ret (0.0, 0.0, 1%Z)
  else
    _logger_error "DHT11 error" e ;; ret (0.0, 0.0, 2%Z).

(** Returns: (temperature_c, humidity, status_code) *)
Definition read_dht11 (self : t) (hw : hardware) : M (float * float * Z) :=
  match dht_sensor self with
  | None => ret (0.0, 0.0, 2%Z)                 (* Status 2 = Sensor error *)
  | Some _ => try_except (read_dht11_try hw) read_dht11_except
  end.

(** The [try] block and the [except] clause of [read_ina219]. *)
Definition read_ina219_try (hw : hardware) : M (float * float * float * Z) :=
  voltage <- access InaBusVoltage (ina_bus_voltage hw) ;;
  current_mA <- access InaCurrent (ina_current hw) ;;
  let current := current_mA / 1000.0 in         (* Convert mA to A *)
  power_mW <- access InaPower (ina_power hw) ;;
  let power := power_mW / 1000.0 in             (* Convert mW to W *)
  ret (voltage, current, power, 0%Z).

Definition read_ina219_except (e : exn) : M (float * float * float * Z) :=
  _logger_error "INA219 error" e ;; ret (0.0, 0.0, 0.0, 2%Z).

(** Returns: (voltage, current, power, status_code) *)
Definition read_ina219 (self : t) (hw : hardware)
  : M (float * float * float * Z) :=
  match ina219 self with
  | None => ret (0.0, 0.0, 0.0, 2%Z)
  | Some _ => try_except (read_ina219_try hw) read_ina219_except
  end.

(** How a polling loop of [read_ultrasonic] ends: the awaited level was
    sampled, with the timestamp held at that moment, or the 100 ms check
    fired and the function returns from inside the loop. *)
Inductive loop_exit : Type :=
| Edge (timestamp : float)
| Timeout.

(** [while GPIO.input(ECHO_PIN) == 0:
       pulse_start = time.time()
       if pulse_start - timeout_start > 0.1: return 0.0, 1] *)
Fixpoint wait_rising (fuel : nat) (hw : hardware)
    (timeout_start pulse_start : float) : M loop_exit :=
  match fuel with
  | O => out_of_fuel
  | S fuel' =>
      level <- GPIO_input hw ECHO_PIN ;;
      if negb level then
        pulse_start <- time_time hw ;;
        if 0.1 <? pulse_start - timeout_start then ret Timeout
        else wait_rising fuel' hw timeout_start pulse_start
      else ret (Edge pulse_start)
  end.

(** [while GPIO.input(ECHO_PIN) == 1:
       pulse_end = time.time()
       if pulse_end - pulse_start > 0.1: return 0.0, 1] *)
Fixpoint wait_falling (fuel : nat) (hw : hardware)
    (pulse_start pulse_end : float) : M loop_exit :=
  match fuel with
  | O => out_of_fuel
  | S fuel' =>
      level <- GPIO_input hw ECHO_PIN ;;
      if level then
        pulse_end <- time_time hw ;;
        if 0.1 <? pulse_end - pulse_start then ret Timeout
        else wait_falling fuel' hw pulse_start pulse_end
      else ret (Edge pulse_end)
  end.

(** Lines 177-186: duration to distance, rounding and the range check. *)
Definition distance_of_pulse (pulse_start pulse_end : float) : float * Z :=
  let pulse_duration := pulse_end - pulse_start in
  let distance := pulse_duration * 17150.0 in
  let distance := round2 distance in
  if (2.0 <=? distance) && (distance <=? 400.0) then (distance, 0%Z)
  else (0.0, 3%Z).

(** The [try] block and the [except] clause of [read_ultrasonic]. *)
Definition read_ultrasonic_try (fuel : nat) (hw : hardware) : M (float * Z) :=
  (* Send trigger pulse *)
  GPIO_output hw TRIG_PIN true ;;
  time_sleep 0.00001 ;;
  GPIO_output hw TRIG_PIN false ;;
  (* Measure echo pulse duration with timeout *)
  timeout_start <- time_time hw ;;
  let pulse_start := timeout_start in
  rising <- wait_rising fuel hw timeout_start pulse_start ;;
  match rising with
  | Timeout => ret (0.0, 1%Z)
  | Edge pulse_start =>
      let pulse_end := pulse_start in
      falling <- wait_falling fuel hw pulse_start pulse_end ;;
      match falling with
      | Timeout => ret (0.0, 1%Z)
      | Edge pulse_end => ret (distance_of_pulse pulse_start pulse_end)
      end
  end.

Definition read_ultrasonic_except (e : exn) : M (float * Z) :=
  _logger_error "HC-SR04 error" e ;; ret (0.0, 2%Z).

(** Returns: (distance_cm, status_code) *)
Definition read_ultrasonic (fuel : nat) (self : t) (hw : hardware)
  : M (float * Z) :=
  if negb (ultrasonic_enabled self) then ret (0.0, 2%Z)
  else try_except (read_ultrasonic_try fuel hw) read_ultrasonic_except.

(** What the two release calls of [cleanup] answer, and the calls made, in
    the order they are made. *)
Record teardown : Type := {
  dht_exit : result unit;       (* [self.dht_sensor.exit()] *)
  gpio_cleanup : result unit    (* [GPIO.cleanup()] *)
}.

Inductive release : Type :=
| DhtExit
| GpioCleanup.

(** Clean up GPIO resources.  There is no [try] in [cleanup]: an exception
    of a release call leaves the method at once. *)
Definition cleanup (self : t) (td : teardown) : result unit * list release :=
  let after_dht (made : list release) : result unit * list release :=
    if ultrasonic_enabled self
    then (gpio_cleanup td, made ++ [GpioCleanup])
    else (Val tt, made) in
  match dht_sensor self with
  | Some _ =>
      match dht_exit td with
      | Val _ => after_dht [DhtExit]
      | Raise e => (Raise e, [DhtExit])
      end
  | None => after_dht []
  end.

End SensorReader.

(** ** class OPCUAServer *)

Module OPCUAServer.

Import SensorReader.
Local Open Scope float_scope.

(** The values one cycle writes into [self.nodes], a field per key of the
    dictionary.  The address space itself belongs to the OPC UA library. *)
Record nodes : Type := {
  temp : float;
  temp_f : float;
  humidity : float;
  dht_status : Z;
  voltage : float;
  current : float;
  power : float;
  ina_status : Z;
  distance : float;
  distance_in : float;
  ultrasonic_status : Z;
  timestamp : string;
  uptime : float
}.

Definition datetime_now_strftime (hw : hardware) : M string :=
  access DatetimeNow (Val (strftime (datetime_now hw))).

(** Read sensors and update OPC UA variables *)
Definition update_values (fuel : nat) (sensor_reader : SensorReader.t)
    (hw : hardware) (start_time : float) : M nodes :=
  (* Read all sensors *)
  '(temp_c, humidity, dht_status) <- read_dht11 sensor_reader hw ;;
  '(voltage, current, power, ina_status) <- read_ina219 sensor_reader hw ;;
  '(distance_cm, ultrasonic_status) <- read_ultrasonic fuel sensor_reader hw ;;
  (* Calculate derived values *)
  let temp_f := temp_c * 9.0 / 5.0 + 32.0 in
  let distance_in := distance_cm / 2.54 in
  now <- time_time hw ;;
  let uptime := now - start_time in
  timestamp <- datetime_now_strftime hw ;;
  ret {| temp := temp_c; temp_f := temp_f; humidity := humidity;
         dht_status := dht_status;
         voltage := voltage; current := current; power := power;
         ina_status := ina_status;
         distance := distance_cm; distance_in := distance_in;
         ultrasonic_status := ultrasonic_status;
         timestamp := timestamp; uptime := uptime |}.

(** *** The address space

    [self.nodes] is a Python dictionary from a key to the variable node
    [add_variable] returned.  A node is known here by the object it was
    added to, its browse name, its value and whether [set_writable] was
    called on it; a value is an OPC UA variant, whose type asyncua takes
    from the Python value ([float], [int] or [str]). *)

Inductive variant : Type :=
| Double (x : float)
| Int64 (n : Z)
| String_ (s : string).

Record variable : Type := {
  parent : string;
  browse_name : string;
  value : variant;
  writable : bool
}.

(** Insertion ordered, as Python's [dict]. *)
Definition node_dict : Type := list (string * variable).

(** [d[key]]; [None] is Python's [KeyError]. *)
Fixpoint dict_get (key : string) (d : node_dict) : option variable :=
  match d with
  | [] => None
  | (k, v) :: rest => if String.eqb key k then Some v else dict_get key rest
  end.

(** [d[key] = v]: replaces the value of an existing key in place, appends
    a new key. *)
Fixpoint dict_set (key : string) (v : variable) (d : node_dict) : node_dict :=
  match d with
  | [] => [(key, v)]
  | (k, v') :: rest =>
      if String.eqb key k then (k, v) :: rest
      else (k, v') :: dict_set key v rest
  end.

Definition add_variable (object_name name : string) (initial : variant)
  : variable :=
  {| parent := object_name; browse_name := name; value := initial;
     writable := false |}.

Definition set_writable (v : variable) : variable :=
  {| parent := parent v; browse_name := browse_name v; value := value v;
     writable := true |}.

(** [OPCUAServer.__init__]: [self.nodes = {}] *)
Definition empty_nodes : node_dict := [].

(** [init_server], lines 235-288: the thirteen variables, then
    [set_writable] on every value of the dictionary.  The calls on the
    asyncua server are taken to succeed. *)
Definition init_server (nodes : node_dict) : node_dict :=
  (* Create DHT11 sensor object *)
  let nodes := dict_set "temp"
    (add_variable "DHT11_Sensor" "Temperature_C" (Double 0.0)) nodes in
  let nodes := dict_set "temp_f"
    (add_variable "DHT11_Sensor" "Temperature_F" (Double 0.0)) nodes in
  let nodes := dict_set "humidity"
    (add_variable "DHT11_Sensor" "Humidity_Percent" (Double 0.0)) nodes in
  let nodes := dict_set "dht_status"
    (add_variable "DHT11_Sensor" "Status" (Int64 0)) nodes in
  (* Create INA219 sensor object *)
  let nodes := dict_set "voltage"
    (add_variable "INA219_PowerMonitor" "Voltage_V" (Double 0.0)) nodes in
  let nodes := dict_set "current"
    (add_variable "INA219_PowerMonitor" "Current_A" (Double 0.0)) nodes in
  let nodes := dict_set "power"
    (add_variable "INA219_PowerMonitor" "Power_W" (Double 0.0)) nodes in
  let nodes := dict_set "ina_status"
    (add_variable "INA219_PowerMonitor" "Status" (Int64 0)) nodes in
  (* Create HC-SR04 sensor object *)
  let nodes := dict_set "distance"
    (add_variable "HCSR04_Distance" "Distance_cm" (Double 0.0)) nodes in
  let nodes := dict_set "distance_in"
    (add_variable "HCSR04_Distance" "Distance_inches" (Double 0.0)) nodes in
  let nodes := dict_set "ultrasonic_status"
    (add_variable "HCSR04_Distance" "Status" (Int64 0)) nodes in
  (* Create system status object *)
  let nodes := dict_set "timestamp"
    (add_variable "SystemInfo" "LastUpdate" (String_ "")) nodes in
  let nodes := dict_set "uptime"
    (add_variable "SystemInfo" "Uptime_seconds" (Double 0.0)) nodes in
  (* Make all variables writable for testing purposes *)
  map (fun kv => (fst kv, set_writable (snd kv))) nodes.

(** [self.nodes[key].write_value(v)]: the subscript raises [KeyError] on a
    missing key ([inl key]); otherwise the node found takes the value. *)
Fixpoint write_value (key : string) (v : variant) (d : node_dict)
  : string + node_dict :=
  match d with
  | [] => inl key
  | (k, node) :: rest =>
      if String.eqb key k then
        inr ((k, {| parent := parent node; browse_name := browse_name node;
                    value := v; writable := writable node |}) :: rest)
      else
        match write_value key v rest with
        | inl missing => inl missing
        | inr rest' => inr ((k, node) :: rest')
        end
  end.

(** The thirteen writes of [update_values], lines 311-330, in their order. *)
Definition writes (v : nodes) : list (string * variant) :=
  [ (* Update DHT11 values *)
    ("temp", Double (temp v));
    ("temp_f", Double (temp_f v));
    ("humidity", Double (humidity v));
    ("dht_status", Int64 (dht_status v));
    (* Update INA219 values *)
    ("voltage", Double (voltage v));
    ("current", Double (current v));
    ("power", Double (power v));
    ("ina_status", Int64 (ina_status v));
    (* Update HC-SR04 values *)
    ("distance", Double (distance v));
    ("distance_in", Double (distance_in v));
    ("ultrasonic_status", Int64 (ultrasonic_status v));
    (* Update system info *)
    ("timestamp", String_ (timestamp v));
    ("uptime", Double (uptime v)) ]%string.

(** The writes one after the other; the first [KeyError] ends them. *)
Fixpoint write_all (ws : list (string * variant)) (d : node_dict)
  : string + node_dict :=
  match ws with
  | [] => inr d
  | (key, v) :: rest =>
      match write_value key v d with
      | inl missing => inl missing
      | inr d' => write_all rest d'
      end
  end.

Definition write_values (v : nodes) (d : node_dict) : string + node_dict :=
  write_all (writes v) d.

(** *** The main update loop

    The first [n] turns of [while True: update_values; sleep] in [run],
    from turn [i] on.  [world i] is what the outside world answers during
    turn [i]; the values each turn publishes are collected in order. *)
Definition asyncio_sleep (seconds : float) : M unit :=
  access (TimeSleep seconds) (Val tt).

Fixpoint update_loop (n fuel : nat) (sensor_reader : SensorReader.t)
    (world : nat -> hardware) (start_time : float) (i : nat)
  : M (list nodes) :=
  match n with
  | O => ret []
  | S n' =>
      published_values <- update_values fuel sensor_reader (world i) start_time ;;
      asyncio_sleep UPDATE_INTERVAL ;;
      later <- update_loop n' fuel sensor_reader world start_time (S i) ;;
      ret (published_values :: later)
  end.

(** [start_time = time.time()], then the loop. *)
Definition run_loop (n fuel : nat) (sensor_reader : SensorReader.t)
    (world : nat -> hardware) : M (list nodes) :=
  start_time <- time_time (world 0%nat) ;;
  update_loop n fuel sensor_reader world start_time 0%nat.

End OPCUAServer.

(** ** test_sensor.py: one reading of the HC-SR04 test *)

Module TestSensor.

Import SensorReader.
Local Open Scope float_scope.

(** What one turn of the HC-SR04 loop of the script prints. *)
Inductive report : Type :=
| InRange (distance : float)            (* "... cm (... inches)" *)
| OutOfRangeReport (distance : float)   (* "... cm - OUT OF RANGE (2-400cm)" *)
| TimeoutReport (msg : string)          (* "Timeout - ..." *)
| ErrorReport (e : exn).                (* "Error - ..." *)

(** Lines 168-205.  The two polling loops are those of [read_ultrasonic],
    with [raise TimeoutError(...)] where the server returns; the
    [TimeoutError] is caught by the first [except] clause of the same
    turn, any exception of a GPIO call by the second.  Printing leaves no
    trace. *)
Definition hcsr04_reading (fuel : nat) (hw : hardware) : M report :=
  try_except
    (GPIO_output hw TRIG_PIN true ;;
     time_sleep 0.00001 ;;
     GPIO_output hw TRIG_PIN false ;;
     timeout_start <- time_time hw ;;
     let pulse_start := timeout_start in
     rising <- wait_rising fuel hw timeout_start pulse_start ;;
     match rising with
     | Timeout => ret (TimeoutReport "No echo received (start)")
     | Edge pulse_start =>
         let pulse_end := pulse_start in
         falling <- wait_falling fuel hw pulse_start pulse_end ;;
         match falling with
         | Timeout => ret (TimeoutReport "No echo received (end)")
         | Edge pulse_end =>
             let pulse_duration := pulse_end - pulse_start in
             let distance := pulse_duration * 17150.0 in
             let distance := round2 distance in
             if (2.0 <=? distance) && (distance <=? 400.0)
             then ret (InRange distance)
             else ret (OutOfRangeReport distance)
         end
     end)
    (fun e => ret (ErrorReport e)).

(** The five turns of the loop, lines 163-208: [success_count] and
    [distances], with a one second sleep between two turns. *)
Fixpoint hcsr04_turns (turns fuel : nat) (world : nat -> hardware) (i : nat)
    (success_count : nat) (distances : list float)
  : M (nat * list float) :=
  match turns with
  | O => ret (success_count, distances)
  | S turns' =>
      r <- hcsr04_reading fuel (world i) ;;
      let '(success_count, distances) :=
        match r with
        | InRange distance => (S success_count, distances ++ [distance])
        | _ => (success_count, distances)
        end in
      (if Nat.ltb i 4 then time_sleep 1.0 else ret tt) ;;
      hcsr04_turns turns' fuel world (S i) success_count distances
  end.

Definition hcsr04_test (fuel : nat) (world : nat -> hardware)
  : M (nat * list float) :=
  hcsr04_turns 5 fuel world 0 0 [].

End TestSensor.

(** ** Scenarios and vocabulary of the statements *)

Import SensorReader OPCUAServer.

(** A bench on which every driver answers: 100 C and 40 %, 5.1 V at
    120 mA, and an echo that is high from the third sample to the fifth,
    the timestamps held at its two edges being 14.8105 ms apart (254 cm). *)
Definition bench : hardware := {|
  new_DHT11 := Val {| dht_pin := DHT_PIN |};
  new_INA219 := Val {| i2c_scl_sda := tt |};
  setup_GPIO := Val tt;
  dht_temperature := Val (Some 100.0%float);
  dht_humidity := Val (Some 40.0%float);
  ina_bus_voltage := Val 5.1%float;
  ina_current := Val 120.0%float;
  ina_power := Val 612.0%float;
  gpio_output := fun _ => Val tt;
  gpio_input := fun k =>
    Val (match k with 0 | 1 => false | 2 | 3 | 4 => true | _ => false end);
  wall_clock := fun k =>
    match k with
    | 0 => 10.0 | 1 => 10.0001 | 2 => 10.0002 | 3 => 10.005
    | 4 => 10.0150105 | 5 => 10.0150107 | _ => 11.0
    end%float;
  datetime_now :=
    {| year := 2026; month := 3; day := 7; hour := 9; minute := 5; second := 0 |}
|}.

(** The same hardware with one device replaced. *)
Definition with_dht (hw : hardware) (t h : result (option float)) : hardware := {|
  new_DHT11 := new_DHT11 hw; new_INA219 := new_INA219 hw;
  setup_GPIO := setup_GPIO hw;
  dht_temperature := t; dht_humidity := h;
  ina_bus_voltage := ina_bus_voltage hw; ina_current := ina_current hw;
  ina_power := ina_power hw;
  gpio_output := gpio_output hw; gpio_input := gpio_input hw;
  wall_clock := wall_clock hw; datetime_now := datetime_now hw
|}.

Definition with_ina (hw : hardware) (v c p : result float) : hardware := {|
  new_DHT11 := new_DHT11 hw; new_INA219 := new_INA219 hw;
  setup_GPIO := setup_GPIO hw;
  dht_temperature := dht_temperature hw; dht_humidity := dht_humidity hw;
  ina_bus_voltage := v; ina_current := c; ina_power := p;
  gpio_output := gpio_output hw; gpio_input := gpio_input hw;
  wall_clock := wall_clock hw; datetime_now := datetime_now hw
|}.

Definition with_gpio (hw : hardware) (out : bool -> result unit)
    (inp : nat -> result bool) : hardware := {|
  new_DHT11 := new_DHT11 hw; new_INA219 := new_INA219 hw;
  setup_GPIO := setup_GPIO hw;
  dht_temperature := dht_temperature hw; dht_humidity := dht_humidity hw;
  ina_bus_voltage := ina_bus_voltage hw; ina_current := ina_current hw;
  ina_power := ina_power hw;
  gpio_output := out; gpio_input := inp;
  wall_clock := wall_clock hw; datetime_now := datetime_now hw
|}.

Definition with_clock (hw : hardware) (clock : nat -> float) (now : datetime)
  : hardware := {|
  new_DHT11 := new_DHT11 hw; new_INA219 := new_INA219 hw;
  setup_GPIO := setup_GPIO hw;
  dht_temperature := dht_temperature hw; dht_humidity := dht_humidity hw;
  ina_bus_voltage := ina_bus_voltage hw; ina_current := ina_current hw;
  ina_power := ina_power hw;
  gpio_output := gpio_output hw; gpio_input := gpio_input hw;
  wall_clock := clock; datetime_now := now
|}.

(** No driver could be constructed. *)
Definition dead_bench : hardware := {|
  new_DHT11 := Raise RuntimeError;
  new_INA219 := Raise ValueError;
  setup_GPIO := Raise RuntimeError;
  dht_temperature := dht_temperature bench; dht_humidity := dht_humidity bench;
  ina_bus_voltage := ina_bus_voltage bench; ina_current := ina_current bench;
  ina_power := ina_power bench;
  gpio_output := gpio_output bench; gpio_input := gpio_input bench;
  wall_clock := wall_clock bench; datetime_now := datetime_now bench
|}.

(** A reader whose three drivers were constructed. *)
Definition ready : SensorReader.t := {|
  dht_sensor := Some {| dht_pin := DHT_PIN |};
  ina219 := Some {| i2c_scl_sda := tt |};
  ultrasonic_enabled := true
|}.

(** The echo line stays low, and the clock passes the deadline at its
    third reading. *)
Definition silent_echo : hardware :=
  with_clock (with_gpio bench (fun _ => Val tt) (fun _ => Val false))
    (fun k => match k with 0 => 10.0 | 1 => 10.04 | 2 => 10.09 | _ => 10.2 end%float)
    (datetime_now bench).

(** The echo line rises at once and stays high. *)
Definition stuck_echo : hardware :=
  with_clock (with_gpio bench (fun _ => Val tt) (fun _ => Val true))
    (fun k => match k with 0 => 10.0 | 1 => 10.04 | 2 => 10.09 | _ => 10.2 end%float)
    (datetime_now bench).

(** [k] turns of a polling loop that did not leave it. *)
Definition polled (k : nat) (st : state) : state :=
  Nat.iter k (fun s => clocked (sampled ECHO_PIN s)) st.

(** The state in which the rising-edge wait starts: the trigger pulse was
    sent and [timeout_start] was read. *)
Definition triggered (st : state) : state :=
  clocked (log (GpioOutput TRIG_PIN false)
             (log (TimeSleep 0.00001%float)
                (log (GpioOutput TRIG_PIN true) st))).

(** The timestamp a polling loop holds after [k] turns that started with
    [c] clock readings taken: the initial one, or the last reading. *)
Definition held (hw : hardware) (c k : nat) (initial : float) : float :=
  match k with
  | O => initial
  | S k' => wall_clock hw (c + k')
  end.

(** The echo line stays low, and each clock reading is 0.2 s after the
    one before. *)
Definition brisk_clock : hardware :=
  with_clock (with_gpio bench (fun _ => Val tt) (fun _ => Val false))
    (fun k => match k with 0 => 10.0 | 1 => 10.2 | 2 => 10.4 | _ => 10.6 end%float)
    (datetime_now bench).

(** The echo line is high for the first three samples. *)
Definition early_echo : hardware :=
  with_gpio bench (fun _ => Val tt)
    (fun k => Val (match k with 0 | 1 | 2 => true | _ => false end)).

(** The ranging port was initialised and the two writes of the trigger
    pulse succeed. *)
Definition pulse_sent (self : SensorReader.t) (hw : hardware) : Prop :=
  ultrasonic_enabled self = true
  /\ gpio_output hw true = Val tt
  /\ gpio_output hw false = Val tt.

(** The bench again with every sensor answer and every clock reading of
    the ranging read unchanged: in [later_clock] the [time.time()] that
    follows the three reads answers later, in [later_datetime] it is
    [datetime.now()] that does. *)
Definition later_clock : hardware :=
  with_clock bench
    (fun k => match k with 5 => 70.0%float | _ => wall_clock bench k end)
    (datetime_now bench).

Definition later_datetime : hardware :=
  with_clock bench (wall_clock bench)
    {| year := 2026; month := 3; day := 7; hour := 9; minute := 6; second := 0 |}.

(** The comparison both loops make: is reading [j] of the clock more than
    0.1 s after reading [i]? *)
Definition past_deadline (hw : hardware) (i j : nat) : bool :=
  (0.1 <? wall_clock hw j - wall_clock hw i)%float.

(** Relative to a read that starts with [p] samples and [c] clock readings
    taken (so that [timeout_start] is reading [c]): the first [r] samples
    are low and none of the readings that follow them is past the
    deadline, and the next sample is high. *)
Definition rising_edge_at (hw : hardware) (p c r : nat) : Prop :=
  (forall k, k < r ->
     gpio_input hw (p + k) = Val false /\ past_deadline hw c (c + S k) = false)
  /\ gpio_input hw (p + r) = Val true.

(** After a rising edge at sample [r] ([pulse_start] is reading [c + r]):
    the next [f] samples are high and none of the readings that follow
    them is past the deadline, and the sample after them is low. *)
Definition falling_edge_at (hw : hardware) (p c r f : nat) : Prop :=
  (forall m, m < f ->
     gpio_input hw (p + S r + m) = Val true
     /\ past_deadline hw (c + r) (c + S r + m) = false)
  /\ gpio_input hw (p + S r + f) = Val false.

(** Every sample taken while the rising-edge wait has not timed out is
    low: no rising edge is seen before the deadline. *)
Definition no_rising_edge (hw : hardware) (p c : nat) : Prop :=
  forall k, (forall j, j < k -> past_deadline hw c (c + S j) = false) ->
            gpio_input hw (p + k) = Val false.

(** After a rising edge at sample [r], every sample taken while the
    falling-edge wait has not timed out is high. *)
Definition no_falling_edge (hw : hardware) (p c r : nat) : Prop :=
  forall m, (forall j, j < m -> past_deadline hw (c + r) (c + S r + j) = false) ->
            gpio_input hw (p + S r + m) = Val true.

(** One of the [S n] readings that follow reading [c] is past the deadline
    counted from reading [c]. *)
Definition deadline_within (hw : hardware) (c n : nat) : Prop :=
  exists j, j <= n /\ past_deadline hw c (c + S j) = true.

(** The clock keeps moving during a read that starts at reading [c]:
    whichever of the first readings becomes the reference, the deadline
    counted from it passes within [S n] further readings. *)
Definition clock_advances (hw : hardware) (c n : nat) : Prop :=
  forall r, r <= n -> deadline_within hw (c + r) n.

(** Both drivers of a pair of runs answer alike. *)
Definition same_dht (hw1 hw2 : hardware) : Prop :=
  dht_temperature hw1 = dht_temperature hw2 /\ dht_humidity hw1 = dht_humidity hw2.

Definition same_ina (hw1 hw2 : hardware) : Prop :=
  ina_bus_voltage hw1 = ina_bus_voltage hw2
  /\ ina_current hw1 = ina_current hw2 /\ ina_power hw1 = ina_power hw2.

Definition same_ranging (hw1 hw2 : hardware) : Prop :=
  (forall l, gpio_output hw1 l = gpio_output hw2 l)
  /\ (forall k, gpio_input hw1 k = gpio_input hw2 k)
  /\ (forall k, wall_clock hw1 k = wall_clock hw2 k).

(** Two states with the same counters, and two outcomes that differ at
    most in the trace. *)
Definition same_counters (st1 st2 : state) : Prop :=
  n_input st1 = n_input st2 /\ n_time st1 = n_time st2.

Definition same_outcome {A} (o1 o2 : option (result A * state)) : Prop :=
  match o1, o2 with
  | None, None => True
  | Some (r1, s1), Some (r2, s2) => r1 = r2 /\ same_counters s1 s2
  | _, _ => False
  end.

(** What a cycle publishes for each port. *)
Definition dht_fields (n : nodes) : float * float * float * Z :=
  (temp n, temp_f n, humidity n, dht_status n).

Definition ina_fields (n : nodes) : float * float * float * Z :=
  (voltage n, current n, power n, ina_status n).

Definition ranging_fields (n : nodes) : float * float * Z :=
  (distance n, distance_in n, ultrasonic_status n).

(** The outcome of a cycle seen through a projection; [None] when the
    cycle has not finished. *)
Definition published {A} (f : nodes -> A) (o : option (result nodes * state))
  : option (result A) :=
  match o with
  | None => None
  | Some (Val n, _) => Some (Val (f n))
  | Some (Raise e, _) => Some (Raise e)
  end.

(** *** Vocabulary for the rest of the code *)

Import TestSensor.

(** A reader none of whose drivers could be constructed. *)
Definition dead : SensorReader.t := {|
  dht_sensor := None; ina219 := None; ultrasonic_enabled := false
|}.

(** The accesses each read is entitled to. *)
Definition dht_access (ev : event) : Prop :=
  match ev with
  | DhtTemperature | DhtHumidity | LoggerError _ _ => True
  | _ => False
  end.

Definition ina_access (ev : event) : Prop :=
  match ev with
  | InaBusVoltage | InaCurrent | InaPower | LoggerError _ _ => True
  | _ => False
  end.

Definition ranging_access (ev : event) : Prop :=
  match ev with
  | GpioOutput pin _ => pin = TRIG_PIN
  | GpioInput pin => pin = ECHO_PIN
  | TimeSleep _ | TimeTime | LoggerError _ _ => True
  | _ => False
  end.

(** [st'] is [st] after some more accesses, all of them in [P]. *)
Definition extends (P : event -> Prop) (st st' : state) : Prop :=
  exists l, trace st' = l ++ trace st /\ Forall P l.

(** A computation that only makes accesses in [P]. *)
Definition keeps {A} (P : event -> Prop) (m : M A) : Prop :=
  forall st out st', m st = Some (out, st') -> extends P st st'.

(** Two outcomes reached in the same state, with related values or the
    same exception. *)
Definition related {A B} (R : A -> B -> Prop)
    (o1 : option (result A * state)) (o2 : option (result B * state)) : Prop :=
  match o1, o2 with
  | None, None => True
  | Some (Val a, s1), Some (Val b, s2) => R a b /\ s1 = s2
  | Some (Raise e1, s1), Some (Raise e2, s2) => e1 = e2 /\ s1 = s2
  | _, _ => False
  end.

(** The status code the server gives to what the test script reports. *)
Definition status_of_report (r : report) : float * Z :=
  match r with
  | InRange d => (d, 0%Z)
  | OutOfRangeReport _ => (0.0%float, 3%Z)
  | TimeoutReport _ => (0.0%float, 1%Z)
  | ErrorReport _ => (0.0%float, 2%Z)
  end.

(** The type of a variant, and the keys of a dictionary. *)
Inductive variant_type : Type := TDouble | TInt64 | TString.

Definition type_of (v : variant) : variant_type :=
  match v with
  | Double _ => TDouble
  | Int64 _ => TInt64
  | String_ _ => TString
  end.

Definition keys (d : node_dict) : list string := map fst d.

(** The value written under [key] by a list of writes, if any (the first,
    when a key is written twice). *)
Fixpoint written (key : string) (ws : list (string * variant))
  : option variant :=
  match ws with
  | [] => None
  | (k, v) :: rest => if String.eqb key k then Some v else written key rest
  end.

(** What a dictionary holds apart from the values, and the values it
    holds, both in the order of the keys. *)
Definition shape (d : node_dict)
  : list (string * (string * string * variant_type * bool)) :=
  map (fun kv => (fst kv, (parent (snd kv), browse_name (snd kv),
                           type_of (value (snd kv)), writable (snd kv)))) d.

Definition values (d : node_dict) : list (string * variant) :=
  map (fun kv => (fst kv, value (snd kv))) d.

(** A node with another value. *)
Definition with_value (node : variable) (v : variant) : variable :=
  {| parent := parent node; browse_name := browse_name node; value := v;
     writable := writable node |}.

(** The values of a cycle in which no port is available and the clock
    reads [now]. *)
Definition unavailable_values (now start_time : float) (stamp : string)
  : nodes := {|
  temp := 0.0; temp_f := 32.0; humidity := 0.0; dht_status := 2;
  voltage := 0.0; current := 0.0; power := 0.0; ina_status := 2;
  distance := 0.0; distance_in := 0.0; ultrasonic_status := 2;
  timestamp := stamp; uptime := (now - start_time)%float
|}.

(** What [n] turns of the main loop publish when no port is available,
    from turn [i] on, with [c] clock readings taken before. *)
Fixpoint unavailable_run (world : nat -> hardware) (start_time : float)
    (i c n : nat) : list nodes :=
  match n with
  | O => []
  | S n' =>
      unavailable_values (wall_clock (world i) c) start_time
        (strftime (datetime_now (world i)))
      :: unavailable_run world start_time (S i) (S c) n'
  end.

(** The range check of the HC-SR04. *)
Definition in_range (d : float) : Prop :=
  (2.0 <=? d)%float = true /\ (d <=? 400.0)%float = true.

(** The bench with its echo and its clock repeating from read to read
    (a read on the bench takes six samples and five clock readings). *)
Definition repeating_bench : hardware :=
  with_clock
    (with_gpio bench (gpio_output bench)
       (fun k => gpio_input bench (Nat.modulo k 6)))
    (fun k => wall_clock bench (Nat.modulo k 5))
    (datetime_now bench).

(** The releases a reader is due. *)
Definition due_releases (self : SensorReader.t) : list release :=
  (match dht_sensor self with Some _ => [DhtExit] | None => [] end)
  ++ (if ultrasonic_enabled self then [GpioCleanup] else []).

(** * Properties *)

(** ** The reads never propagate an exception *)

Ltac run_monad :=
  unfold read_dht11_try, read_dht11_except, read_ina219_try,
    read_ina219_except, read_ultrasonic_except, try_except, bind, ret,
    access, _logger_error, GPIO_output, GPIO_input, time_sleep, time_time;
  cbn.

Lemma init_fields (hw : hardware) (st : state) :
  exists st',
    __init__ hw st =
      Some (Val {| dht_sensor := match new_DHT11 hw with
                                 | Val d => Some d
                                 | Raise _ => None
                                 end;
                   ina219 := match new_INA219 hw with
                             | Val d => Some d
                             | Raise _ => None
                             end;
                   ultrasonic_enabled := match setup_GPIO hw with
                                         | Val _ => true
                                         | Raise _ => false
                                         end |}, st').
Proof.
  unfold __init__. run_monad.
  destruct (new_DHT11 hw), (new_INA219 hw), (setup_GPIO hw);
    cbn; eexists; reflexivity.
Qed.

Lemma read_dht11_try_total (hw : hardware) (st : state) :
  exists r st', read_dht11_try hw st = Some (r, st').
Proof.
  run_monad.
  destruct (dht_temperature hw) as [[t|]|e]; cbn; eauto;
    destruct (dht_humidity hw) as [[h|]|e]; cbn; eauto.
Qed.

Lemma read_ina219_try_total (hw : hardware) (st : state) :
  exists r st', read_ina219_try hw st = Some (r, st').
Proof.
  run_monad.
  destruct (ina_bus_voltage hw); cbn; eauto.
  destruct (ina_current hw); cbn; eauto.
  destruct (ina_power hw); cbn; eauto.
Qed.

(** A [try] whose handler returns a value yields a value. *)
Lemma try_except_value {A} (body : M A) (handler : exn -> M A) (st : state)
    (out : result A) (st' : state) :
  (forall e s, exists a s', handler e s = Some (Val a, s')) ->
  try_except body handler st = Some (out, st') ->
  exists a, out = Val a.
Proof.
  intros Hh. unfold try_except.
  destruct (body st) as [[[a|e] s]|]; intros H.
  - inversion H; subst. eauto.
  - destruct (Hh e s) as (a & s' & Ha). rewrite Ha in H. inversion H; eauto.
  - discriminate.
Qed.

Lemma read_dht11_except_value (e : exn) (s : state) :
  exists a s', read_dht11_except e s = Some (Val a, s').
Proof. run_monad. destruct (isinstance_RuntimeError e); cbn; eauto. Qed.

Lemma read_ina219_except_value (e : exn) (s : state) :
  exists a s', read_ina219_except e s = Some (Val a, s').
Proof. run_monad. eauto. Qed.

Lemma read_ultrasonic_except_value (e : exn) (s : state) :
  exists a s', read_ultrasonic_except e s = Some (Val a, s').
Proof. run_monad. eauto. Qed.

Lemma read_dht11_returns (self : SensorReader.t) (hw : hardware) (st : state) :
  exists r st', read_dht11 self hw st = Some (Val r, st').
Proof.
  unfold read_dht11. destruct (dht_sensor self).
  - destruct (read_dht11_try_total hw st) as ([r|e] & s & H);
      unfold try_except; rewrite H; eauto.
    apply read_dht11_except_value.
  - unfold ret; eauto.
Qed.

Lemma read_ina219_returns (self : SensorReader.t) (hw : hardware) (st : state) :
  exists r st', read_ina219 self hw st = Some (Val r, st').
Proof.
  unfold read_ina219. destruct (ina219 self).
  - destruct (read_ina219_try_total hw st) as ([r|e] & s & H);
      unfold try_except; rewrite H; eauto.
    apply read_ina219_except_value.
  - unfold ret; eauto.
Qed.

Lemma read_ultrasonic_value (fuel : nat) (self : SensorReader.t)
    (hw : hardware) (st : state) (out : result (float * Z)) (st' : state) :
  read_ultrasonic fuel self hw st = Some (out, st') ->
  exists r, out = Val r.
Proof.
  unfold read_ultrasonic. destruct (negb (ultrasonic_enabled self)).
  - unfold ret. intros H; inversion H; eauto.
  - apply try_except_value, read_ultrasonic_except_value.
Qed.

Lemma bind_value {A B} (m : M A) (f : A -> M B) (st : state) (b : B)
    (st' : state) :
  bind m f st = Some (Val b, st') ->
  exists a s, m st = Some (Val a, s) /\ f a s = Some (Val b, st').
Proof.
  unfold bind. destruct (m st) as [[[a|e] s]|]; intros H;
    try discriminate; eauto.
Qed.

Lemma distance_of_pulse_cases (pulse_start pulse_end : float) :
  let d := round2 ((pulse_end - pulse_start) * 17150.0)%float in
  (distance_of_pulse pulse_start pulse_end = (d, Ok)
   /\ (2.0 <=? d)%float = true /\ (d <=? 400.0)%float = true)
  \/ (distance_of_pulse pulse_start pulse_end = (0.0%float, OutOfRange)
      /\ ((2.0 <=? d)%float = false \/ (d <=? 400.0)%float = false)).
Proof.
  unfold distance_of_pulse.
  set (d := round2 _).
  cbv zeta.
  destruct (2.0 <=? d)%float eqn:Hlo; destruct (d <=? 400.0)%float eqn:Hhi;
    cbn; auto.
Qed.

Lemma read_ultrasonic_try_payload (fuel : nat) (hw : hardware) (st : state)
    (d : float) (s : Z) (st' : state) :
  read_ultrasonic_try fuel hw st = Some (Val (d, s), st') ->
  s <> Ok -> d = 0.0%float.
Proof.
  unfold read_ultrasonic_try, Ok. intros H Hs.
  do 4 (apply bind_value in H; destruct H as (? & ? & _ & H)).
  apply bind_value in H; destruct H as (rise & ? & _ & H).
  destruct rise as [ps|].
  - apply bind_value in H; destruct H as (fall & ? & _ & H).
    destruct fall as [pe|].
    + unfold ret in H. inversion H as [Hd].
      destruct (distance_of_pulse_cases ps pe) as [(E & _)|(E & _)];
        rewrite E in Hd; unfold Ok in Hd; inversion Hd; subst; congruence.
    + unfold ret in H. inversion H; reflexivity.
  - unfold ret in H. inversion H; reflexivity.
Qed.

Lemma read_dht11_payload (self : SensorReader.t) (hw : hardware)
    (st st' : state) (t h : float) (s : Z) :
  read_dht11 self hw st = Some (Val (t, h, s), st') -> s <> Ok ->
  t = 0.0%float /\ h = 0.0%float.
Proof.
  unfold Ok, read_dht11. destruct (dht_sensor self).
  - run_monad.
    destruct (dht_temperature hw) as [[?|]|e]; cbn;
      try (destruct (isinstance_RuntimeError e); cbn);
      try (destruct (dht_humidity hw) as [[?|]|e']; cbn;
           try (destruct (isinstance_RuntimeError e'); cbn));
      intros H Hs; inversion H; subst; auto; congruence.
  - unfold ret. intros H Hs; inversion H; auto.
Qed.

Lemma read_ina219_payload (self : SensorReader.t) (hw : hardware)
    (st st' : state) (v c p : float) (s : Z) :
  read_ina219 self hw st = Some (Val (v, c, p, s), st') -> s <> Ok ->
  v = 0.0%float /\ c = 0.0%float /\ p = 0.0%float.
Proof.
  unfold Ok, read_ina219. destruct (ina219 self).
  - run_monad.
    destruct (ina_bus_voltage hw); cbn;
      try (destruct (ina_current hw); cbn);
      try (destruct (ina_power hw); cbn);
      intros H Hs; inversion H; subst; auto; congruence.
  - unfold ret. intros H Hs; inversion H; auto.
Qed.

Lemma read_ultrasonic_payload (fuel : nat) (self : SensorReader.t)
    (hw : hardware) (st st' : state) (d : float) (s : Z) :
  read_ultrasonic fuel self hw st = Some (Val (d, s), st') -> s <> Ok ->
  d = 0.0%float.
Proof.
  unfold read_ultrasonic.
  destruct (negb (ultrasonic_enabled self)).
  - unfold ret. intros H; inversion H; reflexivity.
  - unfold try_except.
    destruct (read_ultrasonic_try fuel hw st) as [[[[d' s'] | e] s1]|] eqn:Hb.
    + intros H; inversion H; subst.
      eapply read_ultrasonic_try_payload; eauto.
    + run_monad. intros H; inversion H; reflexivity.
    + discriminate.
Qed.

(** ** C4: a port whose initialisation failed *)

(** C4. For each of the three ports: when the construction of its driver
    raised in [SensorReader.__init__], every later call of its read, on
    any hardware behaviour and in any state, returns the zero reading with
    status 2 (SensorUnavailable) and leaves the state as it was: the trace
    gains no access, so neither the device nor its initialisation is
    touched again. *)
Theorem failed_init_reads_unavailable (hw0 : hardware) (st0 : state)
    (self : SensorReader.t) (st1 : state) :
  __init__ hw0 st0 = Some (Val self, st1) ->
  (forall e, new_DHT11 hw0 = Raise e ->
     forall hw st,
       read_dht11 self hw st
       = Some (Val (0.0, 0.0, SensorUnavailable)%float, st))
  /\ (forall e, new_INA219 hw0 = Raise e ->
        forall hw st,
          read_ina219 self hw st
          = Some (Val (0.0, 0.0, 0.0, SensorUnavailable)%float, st))
  /\ (forall e, setup_GPIO hw0 = Raise e ->
        forall fuel hw st,
          read_ultrasonic fuel self hw st
          = Some (Val (0.0, SensorUnavailable)%float, st)).
Proof.
  intros Hinit.
  destruct (init_fields hw0 st0) as (st' & Hf).
  rewrite Hf in Hinit. inversion Hinit as [[Hself Hst]]. clear Hinit Hf.
  repeat split; intros e He; intros.
  - unfold read_dht11; cbn. rewrite He. reflexivity.
  - unfold read_ina219; cbn. rewrite He. reflexivity.
  - unfold read_ultrasonic; cbn. rewrite He. reflexivity.
Qed.

Lemma failed_init_reads_unavailable_witness :
  exists self st1,
    __init__ dead_bench initial_state = Some (Val self, st1)
    /\ read_dht11 self bench st1
       = Some (Val (0.0, 0.0, SensorUnavailable)%float, st1)
    /\ read_ina219 self bench st1
       = Some (Val (0.0, 0.0, 0.0, SensorUnavailable)%float, st1)
    /\ read_ultrasonic 5 self bench st1
       = Some (Val (0.0, SensorUnavailable)%float, st1).
Proof.
  eexists. eexists. split; [reflexivity|].
  destruct (failed_init_reads_unavailable dead_bench initial_state _ _ eq_refl)
    as (Hd & Hi & Hu).
  split; [exact (Hd RuntimeError eq_refl bench _)|].
  split; [exact (Hi ValueError eq_refl bench _)|].
  exact (Hu RuntimeError eq_refl 5 bench _).
Defined.

(** ** C6: the payload of a reading that is not Ok *)

(** C6. On every return path of [read_dht11], [read_ina219] and
    [read_ultrasonic], a status other than 0 (Ok) comes with a reading
    whose every numeric field is 0.0. *)
Theorem non_ok_status_zero_payload (self : SensorReader.t) (hw : hardware)
    (st st' : state) :
  (forall t h s,
     read_dht11 self hw st = Some (Val (t, h, s), st') -> s <> Ok ->
     t = 0.0%float /\ h = 0.0%float)
  /\ (forall v c p s,
        read_ina219 self hw st = Some (Val (v, c, p, s), st') -> s <> Ok ->
        v = 0.0%float /\ c = 0.0%float /\ p = 0.0%float)
  /\ (forall fuel d s,
        read_ultrasonic fuel self hw st = Some (Val (d, s), st') -> s <> Ok ->
        d = 0.0%float).
Proof.
  split; [|split].
  - intros t h s. apply read_dht11_payload.
  - intros v c p s. apply read_ina219_payload.
  - intros fuel d s. apply read_ultrasonic_payload.
Qed.

Lemma non_ok_status_zero_payload_witness :
  let hw := with_ina (with_dht silent_echo (Raise RuntimeError) (Val None))
              (Raise OSError) (Val 0.0%float) (Val 0.0%float) in
  (exists t h s st',
     read_dht11 ready hw initial_state = Some (Val (t, h, s), st')
     /\ s <> Ok /\ t = 0.0%float /\ h = 0.0%float)
  /\ (exists v c p s st',
        read_ina219 ready hw initial_state = Some (Val (v, c, p, s), st')
        /\ s <> Ok /\ v = 0.0%float /\ c = 0.0%float /\ p = 0.0%float)
  /\ (exists d s st',
        read_ultrasonic 5 ready hw initial_state = Some (Val (d, s), st')
        /\ s <> Ok /\ d = 0.0%float).
Proof.
  intros hw. split; [|split].
  - do 4 eexists. split; [reflexivity|]. split; [discriminate|].
    eapply (proj1 (non_ok_status_zero_payload ready hw initial_state _));
      [reflexivity | discriminate].
  - do 5 eexists. split; [reflexivity|]. split; [discriminate|].
    eapply (proj1 (proj2 (non_ok_status_zero_payload ready hw initial_state _)));
      [reflexivity | discriminate].
  - do 3 eexists. split; [reflexivity|]. split; [discriminate|].
    eapply (proj2 (proj2 (non_ok_status_zero_payload ready hw initial_state _)) 5);
      [reflexivity | discriminate].
Defined.

(** ** C9: the power monitor *)

(** C9. On an initialised INA219, whatever three floats the driver
    reports, [read_ina219] returns the bus voltage as it is, the current
    and the power each divided by 1000, and status 0 (Ok): no value is
    rejected for its magnitude or sign.  The three properties are read in
    that order and nothing else is touched. *)
Theorem read_ina219_divides_by_1000 (self : SensorReader.t) (hw : hardware)
    (st : state) (v c p : float) :
  ina219 self <> None ->
  ina_bus_voltage hw = Val v ->
  ina_current hw = Val c ->
  ina_power hw = Val p ->
  read_ina219 self hw st
  = Some (Val (v, c / 1000.0, p / 1000.0, Ok)%float,
          log InaPower (log InaCurrent (log InaBusVoltage st))).
Proof.
  intros Hinit Hv Hc Hp. unfold read_ina219.
  destruct (ina219 self); [|congruence].
  run_monad. rewrite Hv; cbn. rewrite Hc; cbn. rewrite Hp; cbn. reflexivity.
Qed.

Lemma read_ina219_divides_by_1000_witness :
  read_ina219 ready
    (with_ina bench (Val (-32.0)%float) (Val 1e12%float) (Val (-250.0)%float))
    initial_state
  = Some (Val (-32.0, 1e9, -0.25, Ok)%float,
          log InaPower (log InaCurrent (log InaBusVoltage initial_state))).
Proof.
  apply (read_ina219_divides_by_1000 ready
           (with_ina bench (Val (-32.0)%float) (Val 1e12%float)
              (Val (-250.0)%float))
           initial_state (-32.0)%float 1e12%float (-250.0)%float);
    [discriminate | reflexivity | reflexivity | reflexivity].
Defined.

(** ** C1: an unexpected failure during a read *)

(** C1, as the code has it.  On an initialised port, an exception raised
    inside the [try] block of a read is turned into a zero reading by the
    [except] clauses: [read_dht11] answers status 1 (ReadError) for a
    [RuntimeError] and status 2 for any other exception, after logging it;
    [read_ina219] and [read_ultrasonic] log every exception and answer
    status 2, the code also used for a port that is unavailable. *)
Theorem unexpected_failure_status (self : SensorReader.t) (hw : hardware)
    (e : exn) (st st1 : state) :
  (dht_sensor self <> None ->
   read_dht11_try hw st = Some (Raise e, st1) ->
   read_dht11 self hw st
   = if isinstance_RuntimeError e
     then Some (Val (0.0, 0.0, ReadError)%float, st1)
     else Some (Val (0.0, 0.0, SensorUnavailable)%float,
                log (LoggerError "DHT11 error" e) st1))
  /\ (ina219 self <> None ->
      read_ina219_try hw st = Some (Raise e, st1) ->
      read_ina219 self hw st
      = Some (Val (0.0, 0.0, 0.0, SensorUnavailable)%float,
              log (LoggerError "INA219 error" e) st1))
  /\ (forall fuel,
      ultrasonic_enabled self = true ->
      read_ultrasonic_try fuel hw st = Some (Raise e, st1) ->
      read_ultrasonic fuel self hw st
      = Some (Val (0.0, SensorUnavailable)%float,
              log (LoggerError "HC-SR04 error" e) st1)).
Proof.
  split; [|split].
  - intros Hinit Hraise. unfold read_dht11.
    destruct (dht_sensor self); [|congruence].
    unfold try_except. rewrite Hraise. unfold read_dht11_except.
    destruct (isinstance_RuntimeError e); reflexivity.
  - intros Hinit Hraise. unfold read_ina219.
    destruct (ina219 self); [|congruence].
    unfold try_except. rewrite Hraise. reflexivity.
  - intros fuel Hinit Hraise. unfold read_ultrasonic.
    rewrite Hinit; cbn. unfold try_except. rewrite Hraise. reflexivity.
Qed.

Lemma unexpected_failure_status_witness :
  read_dht11 ready (with_dht bench (Val (Some 21.0%float)) (Raise OSError))
    initial_state
  = Some (Val (0.0, 0.0, SensorUnavailable)%float,
          log (LoggerError "DHT11 error" OSError)
            (log DhtHumidity (log DhtTemperature initial_state)))
  /\ read_ina219 ready
       (with_ina bench (Val 5.0%float) (Raise OSError) (Val 0.0%float))
       initial_state
     = Some (Val (0.0, 0.0, 0.0, SensorUnavailable)%float,
             log (LoggerError "INA219 error" OSError)
               (log InaCurrent (log InaBusVoltage initial_state)))
  /\ read_ultrasonic 5 ready
       (with_gpio bench (fun _ => Val tt)
          (fun k => match k with 0 => Val false | _ => Raise OSError end))
       initial_state
     = Some (Val (0.0, SensorUnavailable)%float,
             log (LoggerError "HC-SR04 error" OSError)
               (sampled ECHO_PIN
                  (polled 1
                     (clocked
                        (log (GpioOutput TRIG_PIN false)
                           (log (TimeSleep 0.00001%float)
                              (log (GpioOutput TRIG_PIN true)
                                 initial_state))))))).
Proof.
  split; [|split].
  - apply (proj1 (unexpected_failure_status ready
                    (with_dht bench (Val (Some 21.0%float)) (Raise OSError))
                    OSError initial_state _));
      [discriminate | reflexivity].
  - apply (proj1 (proj2 (unexpected_failure_status ready
                    (with_ina bench (Val 5.0%float) (Raise OSError)
                       (Val 0.0%float))
                    OSError initial_state _)));
      [discriminate | reflexivity].
  - apply (proj2 (proj2 (unexpected_failure_status ready
                    (with_gpio bench (fun _ => Val tt)
                       (fun k => match k with
                                 | 0 => Val false
                                 | _ => Raise OSError
                                 end))
                    OSError initial_state _)) 5);
      [reflexivity | reflexivity].
Defined.

(** The statement of C1 fails on each of the three reads: with every
    driver constructed, an [OSError] raised by the DHT11's humidity
    property, by the INA219's current property, or by a sample of the echo
    line, none of which is the DHT11's [RuntimeError], is answered with
    status 2 and not with status 1. *)
Lemma unexpected_failure_is_not_ReadError :
  isinstance_RuntimeError OSError = false
  /\ SensorUnavailable <> ReadError
  /\ (exists st',
        read_dht11 ready
          (with_dht bench (Val (Some 21.0%float)) (Raise OSError))
          initial_state
        = Some (Val (0.0, 0.0, SensorUnavailable)%float, st'))
  /\ (exists st',
        read_ina219 ready
          (with_ina bench (Val 5.0%float) (Raise OSError) (Val 0.0%float))
          initial_state
        = Some (Val (0.0, 0.0, 0.0, SensorUnavailable)%float, st'))
  /\ (exists st',
        read_ultrasonic 5 ready
          (with_gpio bench (fun _ => Val tt)
             (fun k => match k with 0 => Val false | _ => Raise OSError end))
          initial_state
        = Some (Val (0.0, SensorUnavailable)%float, st')).
Proof.
  split; [reflexivity|]. split; [discriminate|].
  split; [|split]; eexists; reflexivity.
Qed.

(** ** The two polling loops *)

Lemma polled_succ (k : nat) (st : state) :
  polled (S k) st = polled k (clocked (sampled ECHO_PIN st)).
Proof.
  unfold polled.
  exact (Nat.iter_succ_r k state (fun s => clocked (sampled ECHO_PIN s)) st).
Qed.

Lemma polled_counters (k : nat) (st : state) :
  n_input (polled k st) = n_input st + k /\ n_time (polled k st) = n_time st + k.
Proof.
  induction k as [|k IH].
  - cbn. split; lia.
  - destruct IH as [Hi Ht].
    change (polled (S k) st) with (clocked (sampled ECHO_PIN (polled k st))).
    cbn [n_input n_time clocked sampled]. rewrite Hi, Ht. split; lia.
Qed.

Lemma held_shift (hw : hardware) (c k : nat) (initial : float) :
  held hw (S c) k (wall_clock hw c) = held hw c (S k) initial.
Proof.
  destruct k as [|k]; cbn.
  - now rewrite Nat.add_0_r.
  - now rewrite Nat.add_succ_r.
Qed.

Section Loops.

Variable hw : hardware.

(** One turn of the rising-edge wait, by what the sample and the clock
    answer. *)
Lemma wait_rising_edge (fuel : nat) (t0 ps : float) (st : state) :
  gpio_input hw (n_input st) = Val true ->
  wait_rising (S fuel) hw t0 ps st = Some (Val (Edge ps), sampled ECHO_PIN st).
Proof. intros H. cbn. run_monad. rewrite H. reflexivity. Qed.

Lemma wait_rising_raise (fuel : nat) (t0 ps : float) (st : state) (e : exn) :
  gpio_input hw (n_input st) = Raise e ->
  wait_rising (S fuel) hw t0 ps st = Some (Raise e, sampled ECHO_PIN st).
Proof. intros H. cbn. run_monad. rewrite H. reflexivity. Qed.

Lemma wait_rising_low (fuel : nat) (t0 ps : float) (st : state) :
  gpio_input hw (n_input st) = Val false ->
  wait_rising (S fuel) hw t0 ps st
  = if (0.1 <? wall_clock hw (n_time st) - t0)%float
    then Some (Val Timeout, clocked (sampled ECHO_PIN st))
    else wait_rising fuel hw t0 (wall_clock hw (n_time st))
           (clocked (sampled ECHO_PIN st)).
Proof.
  intros H. cbn. run_monad. rewrite H. cbn.
  destruct (0.1 <? wall_clock hw (n_time st) - t0)%float; reflexivity.
Qed.

Lemma wait_falling_edge (fuel : nat) (ps pe : float) (st : state) :
  gpio_input hw (n_input st) = Val false ->
  wait_falling (S fuel) hw ps pe st = Some (Val (Edge pe), sampled ECHO_PIN st).
Proof. intros H. cbn. run_monad. rewrite H. reflexivity. Qed.

Lemma wait_falling_raise (fuel : nat) (ps pe : float) (st : state) (e : exn) :
  gpio_input hw (n_input st) = Raise e ->
  wait_falling (S fuel) hw ps pe st = Some (Raise e, sampled ECHO_PIN st).
Proof. intros H. cbn. run_monad. rewrite H. reflexivity. Qed.

Lemma wait_falling_high (fuel : nat) (ps pe : float) (st : state) :
  gpio_input hw (n_input st) = Val true ->
  wait_falling (S fuel) hw ps pe st
  = if (0.1 <? wall_clock hw (n_time st) - ps)%float
    then Some (Val Timeout, clocked (sampled ECHO_PIN st))
    else wait_falling fuel hw ps (wall_clock hw (n_time st))
           (clocked (sampled ECHO_PIN st)).
Proof.
  intros H. cbn. run_monad. rewrite H. cbn.
  destruct (0.1 <? wall_clock hw (n_time st) - ps)%float; reflexivity.
Qed.

(** [k] turns that neither see the edge nor time out. *)
Lemma wait_rising_turns (k : nat) :
  forall (fuel : nat) (t0 ps : float) (st : state),
    (forall j, j < k ->
       gpio_input hw (n_input st + j) = Val false
       /\ (0.1 <? wall_clock hw (n_time st + j) - t0)%float = false) ->
    wait_rising (k + fuel) hw t0 ps st
    = wait_rising fuel hw t0 (held hw (n_time st) k ps) (polled k st).
Proof.
  induction k as [|k IH]; intros fuel t0 ps st H.
  - reflexivity.
  - destruct (H 0 ltac:(lia)) as [Hlow Hin]. rewrite !Nat.add_0_r in *.
    change (S k + fuel) with (S (k + fuel)).
    rewrite wait_rising_low, Hin by exact Hlow.
    rewrite IH.
    + cbn [n_time clocked sampled]. rewrite held_shift with (initial := ps).
      now rewrite polled_succ.
    + intros j Hj. cbn [n_input n_time clocked sampled].
      destruct (H (S j) ltac:(lia)) as [Hl Hd].
      rewrite !Nat.add_succ_r in *. auto.
Qed.

Lemma wait_falling_turns (k : nat) :
  forall (fuel : nat) (ps pe : float) (st : state),
    (forall j, j < k ->
       gpio_input hw (n_input st + j) = Val true
       /\ (0.1 <? wall_clock hw (n_time st + j) - ps)%float = false) ->
    wait_falling (k + fuel) hw ps pe st
    = wait_falling fuel hw ps (held hw (n_time st) k pe) (polled k st).
Proof.
  induction k as [|k IH]; intros fuel ps pe st H.
  - reflexivity.
  - destruct (H 0 ltac:(lia)) as [Hhigh Hin]. rewrite !Nat.add_0_r in *.
    change (S k + fuel) with (S (k + fuel)).
    rewrite wait_falling_high, Hin by exact Hhigh.
    rewrite IH.
    + cbn [n_time clocked sampled]. rewrite held_shift with (initial := pe).
      now rewrite polled_succ.
    + intros j Hj. cbn [n_input n_time clocked sampled].
      destruct (H (S j) ltac:(lia)) as [Hl Hd].
      rewrite !Nat.add_succ_r in *. auto.
Qed.

(** The body of the read once the trigger pulse went out. *)
Lemma read_ultrasonic_try_triggered (fuel : nat) (st : state) :
  gpio_output hw true = Val tt ->
  gpio_output hw false = Val tt ->
  read_ultrasonic_try fuel hw st
  = bind (wait_rising fuel hw (wall_clock hw (n_time st))
            (wall_clock hw (n_time st)))
      (fun rising =>
         match rising with
         | Timeout => ret (0.0%float, 1%Z)
         | Edge pulse_start =>
             bind (wait_falling fuel hw pulse_start pulse_start)
               (fun falling =>
                  match falling with
                  | Timeout => ret (0.0%float, 1%Z)
                  | Edge pulse_end =>
                      ret (distance_of_pulse pulse_start pulse_end)
                  end)
         end)
      (triggered st).
Proof.
  intros Hhi Hlo. unfold read_ultrasonic_try, GPIO_output, time_sleep, access.
  unfold bind at 1. rewrite Hhi.
  unfold bind at 1. unfold bind at 1. rewrite Hlo.
  unfold bind at 1. reflexivity.
Qed.

End Loops.

Section Edges.

Variable hw : hardware.

(** The rising-edge wait, when the edge is seen at sample [r]. *)
Lemma rising_edge_seen (st : state) (r fuel : nat) :
  rising_edge_at hw (n_input st) (n_time st) r ->
  r < fuel ->
  wait_rising fuel hw (wall_clock hw (n_time st)) (wall_clock hw (n_time st))
    (triggered st)
  = Some (Val (Edge (wall_clock hw (n_time st + r))),
          sampled ECHO_PIN (polled r (triggered st))).
Proof.
  intros [Hlow Hhigh] Hfuel.
  replace fuel with (r + S (fuel - S r)) by lia.
  rewrite wait_rising_turns.
  - rewrite wait_rising_edge.
    + f_equal. f_equal. f_equal.
      destruct r as [|r]; cbn [held triggered clocked n_time log].
      * now rewrite Nat.add_0_r.
      * now rewrite Nat.add_succ_r.
    + destruct (polled_counters r (triggered st)) as [-> _]. exact Hhigh.
  - intros j Hj. destruct (Hlow j Hj) as [Hl Hd].
    cbn [triggered clocked n_time n_input log].
    split; [exact Hl|].
    unfold past_deadline in Hd. now rewrite Nat.add_succ_r in Hd.
Qed.

(** The falling-edge wait that follows a rising edge at sample [r], when
    the falling edge is seen after [f] high samples. *)
Lemma falling_edge_seen (p c r f fuel : nat) (s : state) :
  n_input s = p + S r ->
  n_time s = S c + r ->
  falling_edge_at hw p c r f ->
  f < fuel ->
  wait_falling fuel hw (wall_clock hw (c + r)) (wall_clock hw (c + r)) s
  = Some (Val (Edge (wall_clock hw (c + r + f))), sampled ECHO_PIN (polled f s)).
Proof.
  intros Hp Hc [Hhigh Hlow] Hfuel.
  replace fuel with (f + S (fuel - S f)) by lia.
  rewrite wait_falling_turns.
  - rewrite wait_falling_edge.
    + f_equal. f_equal. f_equal. rewrite Hc.
      destruct f as [|f]; cbn [held].
      * now rewrite Nat.add_0_r.
      * replace (S c + r + f) with (c + r + S f) by lia. reflexivity.
    + destruct (polled_counters f s) as [-> _]. rewrite Hp. exact Hlow.
  - intros j Hj. destruct (Hhigh j Hj) as [Hh Hd].
    rewrite Hp, Hc. split; [exact Hh|].
    unfold past_deadline in Hd.
    replace (S c + r + j) with (c + S r + j) by lia. exact Hd.
Qed.

(** The first reading past the deadline. *)
Lemma first_past_deadline (c n : nat) :
  deadline_within hw c n ->
  exists j, j <= n /\ past_deadline hw c (c + S j) = true
            /\ forall i, i < j -> past_deadline hw c (c + S i) = false.
Proof.
  intros (j & Hj & Hd).
  assert (H : forall m, (forall i, i < m -> past_deadline hw c (c + S i) = false)
                        \/ exists j', j' < m
                             /\ past_deadline hw c (c + S j') = true
                             /\ forall i, i < j' ->
                                  past_deadline hw c (c + S i) = false).
  { induction m as [|m [IH|(j' & Hlt & Ht & Hf)]].
    - left. intros i Hi. lia.
    - destruct (past_deadline hw c (c + S m)) eqn:E.
      + right. exists m. repeat split; auto.
      + left. intros i Hi.
        destruct (Nat.eq_dec i m) as [->|]; [exact E | apply IH; lia].
    - right. exists j'. repeat split; auto. }
  destruct (H (S j)) as [Hnone|(j' & Hlt & Ht & Hf)].
  - rewrite Hnone in Hd by lia. discriminate.
  - exists j'. repeat split; auto. lia.
Qed.

End Edges.

(** ** C2: both edges seen *)

Lemma read_ultrasonic_both_edges (self : SensorReader.t) (hw : hardware)
    (st : state) (r f fuel : nat) :
  ultrasonic_enabled self = true ->
  gpio_output hw true = Val tt ->
  gpio_output hw false = Val tt ->
  rising_edge_at hw (n_input st) (n_time st) r ->
  falling_edge_at hw (n_input st) (n_time st) r f ->
  r < fuel -> f < fuel ->
  read_ultrasonic fuel self hw st
  = Some (Val (distance_of_pulse (wall_clock hw (n_time st + r))
                 (wall_clock hw (n_time st + r + f))),
          sampled ECHO_PIN
            (polled f (sampled ECHO_PIN (polled r (triggered st))))).
Proof.
  intros Hen Hhi Hlo Hrise Hfall Hr Hf.
  unfold read_ultrasonic. rewrite Hen. cbn [negb].
  unfold try_except.
  rewrite read_ultrasonic_try_triggered by assumption.
  unfold bind at 1. rewrite (rising_edge_seen hw st r fuel Hrise Hr).
  unfold bind.
  rewrite (falling_edge_seen hw (n_input st) (n_time st) r f fuel); auto.
  - destruct (polled_counters r (triggered st)) as [Hi _].
    cbn [n_input sampled]. rewrite Hi. cbn. lia.
  - destruct (polled_counters r (triggered st)) as [_ Ht].
    cbn [n_time sampled]. rewrite Ht. cbn. lia.
Qed.

(** C2. On an initialised ranging port whose trigger pulse goes out, when
    the rising edge is seen at sample [r] and the falling edge after [f]
    further samples, each before its wait timed out, the read computes
    round((fallingEdgeTime - risingEdgeTime) * 17150, 2) from the two
    timestamps held when the loops were left; it returns that distance
    with status 0 (Ok) when it lies in [2, 400] and 0.0 with status 3
    (OutOfRange) otherwise. *)
Theorem both_edges_give_distance (self : SensorReader.t) (hw : hardware)
    (st : state) (r f fuel : nat) :
  ultrasonic_enabled self = true ->
  gpio_output hw true = Val tt ->
  gpio_output hw false = Val tt ->
  rising_edge_at hw (n_input st) (n_time st) r ->
  falling_edge_at hw (n_input st) (n_time st) r f ->
  r < fuel -> f < fuel ->
  let risingEdgeTime := wall_clock hw (n_time st + r) in
  let fallingEdgeTime := wall_clock hw (n_time st + r + f) in
  let distance :=
    round2 ((fallingEdgeTime - risingEdgeTime) * 17150.0)%float in
  read_ultrasonic fuel self hw st
  = Some (Val (if ((2.0 <=? distance) && (distance <=? 400.0))%float
               then (distance, Ok)
               else (0.0%float, OutOfRange)),
          sampled ECHO_PIN
            (polled f (sampled ECHO_PIN (polled r (triggered st))))).
Proof.
  intros Hen Hhi Hlo Hrise Hfall Hr Hf. cbv zeta.
  now rewrite (read_ultrasonic_both_edges self hw st r f fuel).
Qed.

Lemma both_edges_give_distance_witness :
  read_ultrasonic 10 ready bench initial_state
  = Some (Val (254.0%float, Ok),
          sampled ECHO_PIN
            (polled 2 (sampled ECHO_PIN (polled 2 (triggered initial_state))))).
Proof.
  apply (both_edges_give_distance ready bench initial_state 2 2 10).
  - reflexivity.
  - reflexivity.
  - reflexivity.
  - split; [|reflexivity].
    intros k Hk. destruct k as [|[|k]]; [split; reflexivity ..|lia].
  - split; [|reflexivity].
    intros m Hm. destruct m as [|[|m]]; [split; reflexivity ..|lia].
  - lia.
  - lia.
Defined.

(** ** C10: the echo line is already high at the first sample *)

(** C10. When the first sample of the rising-edge wait reads high, the
    loop body does not run: the wait ends with [pulse_start] still equal
    to [timeout_start], the clock reading taken before any sample, and no
    further clock reading is taken.  The pulse duration of the read is
    then counted from that reading. *)
Theorem echo_high_at_first_sample (self : SensorReader.t) (hw : hardware)
    (st : state) (fuel : nat) :
  gpio_input hw (n_input st) = Val true ->
  let timeout_start := wall_clock hw (n_time st) in
  wait_rising (S fuel) hw timeout_start timeout_start (triggered st)
  = Some (Val (Edge timeout_start), sampled ECHO_PIN (triggered st))
  /\ n_time (sampled ECHO_PIN (triggered st)) = n_time (triggered st)
  /\ forall f,
       ultrasonic_enabled self = true ->
       gpio_output hw true = Val tt ->
       gpio_output hw false = Val tt ->
       falling_edge_at hw (n_input st) (n_time st) 0 f ->
       f <= fuel ->
       read_ultrasonic (S fuel) self hw st
       = Some (Val (distance_of_pulse timeout_start
                      (wall_clock hw (n_time st + f))),
               sampled ECHO_PIN (polled f (sampled ECHO_PIN (triggered st)))).
Proof.
  intros Hhigh. cbv zeta. split; [|split].
  - apply wait_rising_edge. exact Hhigh.
  - reflexivity.
  - intros f Hen Hhi Hlo Hfall Hf.
    assert (Hrise : rising_edge_at hw (n_input st) (n_time st) 0).
    { split; [intros k Hk; lia | now rewrite Nat.add_0_r]. }
    pose proof (read_ultrasonic_both_edges self hw st 0 f (S fuel)
                  Hen Hhi Hlo Hrise Hfall ltac:(lia) ltac:(lia)) as H.
    rewrite !Nat.add_0_r in H. exact H.
Qed.

Lemma echo_high_at_first_sample_witness :
  wait_rising 3 early_echo 10.0%float 10.0%float (triggered initial_state)
  = Some (Val (Edge 10.0%float), sampled ECHO_PIN (triggered initial_state))
  /\ read_ultrasonic 3 ready early_echo initial_state
     = Some (Val (3.43%float, Ok),
             sampled ECHO_PIN
               (polled 2 (sampled ECHO_PIN (triggered initial_state)))).
Proof.
  destruct (echo_high_at_first_sample ready early_echo initial_state 2 eq_refl)
    as (Hloop & _ & Hread).
  split; [exact Hloop|].
  apply (Hread 2); [reflexivity | reflexivity | reflexivity | | lia].
  split; [|reflexivity].
  intros m Hm. destruct m as [|[|m]]; [split; reflexivity ..|lia].
Defined.

(** ** C3: the waits are bounded *)

Section Termination.

Variable hw : hardware.

(** Once a reading past the deadline is at most [n] turns away, the
    rising-edge wait ends within [S n] turns, whatever the echo line does. *)
Lemma wait_rising_terminates (n : nat) :
  forall (t0 ps : float) (st : state),
    (exists j, j <= n
               /\ (0.1 <? wall_clock hw (n_time st + j) - t0)%float = true) ->
    exists out st',
      (forall fuel, n < fuel -> wait_rising fuel hw t0 ps st = Some (out, st'))
      /\ (forall ts, out = Val (Edge ts) ->
            exists r, r <= n /\ ts = held hw (n_time st) r ps
                      /\ n_time st' = n_time st + r).
Proof.
  induction n as [|n IH]; intros t0 ps st (j & Hj & Hd);
    destruct (gpio_input hw (n_input st)) as [[|]|e] eqn:Hin.
  1,4: exists (Val (Edge ps)), (sampled ECHO_PIN st); split;
    [ intros [|fuel] Hf; [lia | now apply wait_rising_edge]
    | intros ts Hts; inversion Hts; subst; exists 0; cbn;
      repeat split; lia ].
  2,4: exists (Raise e), (sampled ECHO_PIN st); split;
    [ intros [|fuel] Hf; [lia | now apply wait_rising_raise]
    | intros ts Hts; discriminate ].
  - assert (j = 0) by lia; subst j. rewrite Nat.add_0_r in Hd.
    exists (Val Timeout), (clocked (sampled ECHO_PIN st)); split.
    + intros [|fuel] Hf; [lia|]. rewrite wait_rising_low, Hd by exact Hin.
      reflexivity.
    + intros ts Hts; discriminate.
  - destruct (0.1 <? wall_clock hw (n_time st) - t0)%float eqn:Hnow.
    + exists (Val Timeout), (clocked (sampled ECHO_PIN st)); split.
      * intros [|fuel] Hf; [lia|]. rewrite wait_rising_low, Hnow by exact Hin.
        reflexivity.
      * intros ts Hts; discriminate.
    + destruct j as [|j]; [rewrite Nat.add_0_r in Hd; congruence|].
      destruct (IH t0 (wall_clock hw (n_time st)) (clocked (sampled ECHO_PIN st)))
        as (out & st' & Hrun & Hedge).
      { exists j. split; [lia|]. cbn [n_time clocked sampled].
        now rewrite Nat.add_succ_r in Hd. }
      exists out, st'. split.
      * intros [|fuel] Hf; [lia|]. rewrite wait_rising_low, Hnow by exact Hin.
        apply Hrun. lia.
      * intros ts Hts. destruct (Hedge ts Hts) as (r & Hr & Hts' & Hst').
        exists (S r). repeat split; [lia | |].
        -- cbn [n_time clocked sampled] in Hts'.
           now rewrite held_shift with (initial := ps) in Hts'.
        -- cbn [n_time clocked sampled] in Hst'. lia.
Qed.

Lemma wait_falling_terminates (n : nat) :
  forall (ps pe : float) (st : state),
    (exists j, j <= n
               /\ (0.1 <? wall_clock hw (n_time st + j) - ps)%float = true) ->
    exists out st',
      forall fuel, n < fuel -> wait_falling fuel hw ps pe st = Some (out, st').
Proof.
  induction n as [|n IH]; intros ps pe st (j & Hj & Hd);
    destruct (gpio_input hw (n_input st)) as [[|]|e] eqn:Hin.
  2,5: exists (Val (Edge pe)), (sampled ECHO_PIN st);
    intros [|fuel] Hf; [lia | now apply wait_falling_edge].
  2,4: exists (Raise e), (sampled ECHO_PIN st);
    intros [|fuel] Hf; [lia | now apply wait_falling_raise].
  - assert (j = 0) by lia; subst j. rewrite Nat.add_0_r in Hd.
    exists (Val Timeout), (clocked (sampled ECHO_PIN st)).
    intros [|fuel] Hf; [lia|]. rewrite wait_falling_high, Hd by exact Hin.
    reflexivity.
  - destruct (0.1 <? wall_clock hw (n_time st) - ps)%float eqn:Hnow.
    + exists (Val Timeout), (clocked (sampled ECHO_PIN st)).
      intros [|fuel] Hf; [lia|]. rewrite wait_falling_high, Hnow by exact Hin.
      reflexivity.
    + destruct j as [|j]; [rewrite Nat.add_0_r in Hd; congruence|].
      destruct (IH ps (wall_clock hw (n_time st)) (clocked (sampled ECHO_PIN st)))
        as (out & st' & Hrun).
      { exists j. split; [lia|]. cbn [n_time clocked sampled].
        now rewrite Nat.add_succ_r in Hd. }
      exists out, st'.
      intros [|fuel] Hf; [lia|]. rewrite wait_falling_high, Hnow by exact Hin.
      apply Hrun. lia.
Qed.

End Termination.

Section Timeouts.

Variable hw : hardware.

(** The rising-edge wait when no sample taken before the deadline is high. *)
Lemma no_rising_edge_times_out (st : state) (n : nat) :
  deadline_within hw (n_time st) n ->
  no_rising_edge hw (n_input st) (n_time st) ->
  exists st',
    forall fuel, n < fuel ->
      wait_rising fuel hw (wall_clock hw (n_time st)) (wall_clock hw (n_time st))
        (triggered st)
      = Some (Val Timeout, st').
Proof.
  intros Hd Hlow.
  destruct (first_past_deadline hw _ _ Hd) as (j & Hj & Hpast & Hbefore).
  exists (clocked (sampled ECHO_PIN (polled j (triggered st)))).
  intros fuel Hfuel.
  replace fuel with (j + S (fuel - S j)) by lia.
  destruct (polled_counters j (triggered st)) as [Hi Ht].
  rewrite wait_rising_turns.
  - rewrite wait_rising_low.
    + rewrite Ht. cbn [triggered clocked n_time log].
      unfold past_deadline in Hpast. rewrite Nat.add_succ_r in Hpast.
      cbn [Nat.add]. now rewrite Hpast.
    + rewrite Hi. apply Hlow. exact Hbefore.
  - intros i Hi'. cbn [triggered clocked n_time n_input log]. split.
    + apply Hlow. intros i' Hi''. apply Hbefore. lia.
    + specialize (Hbefore i Hi'). unfold past_deadline in Hbefore.
      now rewrite Nat.add_succ_r in Hbefore.
Qed.

(** The falling-edge wait that follows a rising edge at sample [r], when
    no sample taken before the deadline is low. *)
Lemma no_falling_edge_times_out (p c r n : nat) (s : state) :
  n_input s = p + S r ->
  n_time s = S c + r ->
  deadline_within hw (c + r) n ->
  no_falling_edge hw p c r ->
  exists st',
    forall fuel, n < fuel ->
      wait_falling fuel hw (wall_clock hw (c + r)) (wall_clock hw (c + r)) s
      = Some (Val Timeout, st').
Proof.
  intros Hp Hc Hd Hhigh.
  destruct (first_past_deadline hw _ _ Hd) as (j & Hj & Hpast & Hbefore).
  assert (Hbefore' : forall i, i < j ->
            past_deadline hw (c + r) (c + S r + i) = false).
  { intros i Hi. specialize (Hbefore i Hi).
    now replace (c + S r + i) with (c + r + S i) by lia. }
  exists (clocked (sampled ECHO_PIN (polled j s))).
  intros fuel Hfuel.
  replace fuel with (j + S (fuel - S j)) by lia.
  destruct (polled_counters j s) as [Hi Ht].
  rewrite wait_falling_turns.
  - rewrite wait_falling_high.
    + rewrite Ht, Hc. unfold past_deadline in Hpast.
      replace (S c + r + j) with (c + r + S j) by lia. now rewrite Hpast.
    + rewrite Hi, Hp. apply Hhigh. exact Hbefore'.
  - intros i Hi'. rewrite Hp, Hc. split.
    + apply Hhigh. intros i' Hi''. apply Hbefore'. lia.
    + specialize (Hbefore' i Hi'). unfold past_deadline in Hbefore'.
      now replace (S c + r + i) with (c + S r + i) by lia.
Qed.

(** With a clock that keeps moving, the read returns. *)
Lemma read_ultrasonic_returns (self : SensorReader.t) (st : state) (n : nat) :
  clock_advances hw (n_time st) n ->
  exists out st',
    forall fuel, n < fuel ->
      read_ultrasonic fuel self hw st = Some (Val out, st').
Proof.
  intros Hclock. unfold read_ultrasonic.
  destruct (ultrasonic_enabled self); cbn [negb];
    [|eexists; eexists; intros; reflexivity].
  unfold try_except.
  destruct (gpio_output hw true) as [[]|e] eqn:Hhi.
  2:{ eexists; eexists; intros fuel _.
      unfold read_ultrasonic_try, GPIO_output, access. unfold bind at 1.
      rewrite Hhi. reflexivity. }
  destruct (gpio_output hw false) as [[]|e] eqn:Hlo.
  2:{ eexists; eexists; intros fuel _.
      unfold read_ultrasonic_try, GPIO_output, time_sleep, access.
      unfold bind at 1. rewrite Hhi.
      unfold bind at 1. unfold bind at 1. rewrite Hlo. reflexivity. }
  destruct (wait_rising_terminates hw n (wall_clock hw (n_time st))
              (wall_clock hw (n_time st)) (triggered st))
    as (rise & s1 & Hrise & Hedge).
  { destruct (Hclock 0 ltac:(lia)) as (j & Hj & Hd).
    exists j. split; [exact Hj|]. unfold past_deadline in Hd.
    rewrite !Nat.add_0_r, Nat.add_succ_r in Hd. exact Hd. }
  destruct rise as [[ps|]|e].
  - destruct (Hedge ps eq_refl) as (r & Hr & Hps & Hs1).
    assert (Hps' : ps = wall_clock hw (n_time st + r)).
    { rewrite Hps. destruct r as [|r]; cbn [held triggered clocked n_time log].
      - now rewrite Nat.add_0_r.
      - now rewrite Nat.add_succ_r. }
    destruct (wait_falling_terminates hw n ps ps s1) as (fall & s2 & Hfall).
    { destruct (Hclock r Hr) as (j & Hj & Hd).
      exists j. split; [exact Hj|]. unfold past_deadline in Hd.
      rewrite Hs1, Hps'. cbn [triggered clocked n_time log].
      now replace (S (n_time st) + r + j) with (n_time st + r + S j) by lia. }
    destruct fall as [[pe|]|e].
    all: eexists; eexists; intros fuel Hfuel;
      rewrite read_ultrasonic_try_triggered by assumption;
      unfold bind at 1; rewrite (Hrise fuel Hfuel);
      unfold bind; rewrite (Hfall fuel Hfuel); reflexivity.
  - eexists; eexists; intros fuel Hfuel.
    rewrite read_ultrasonic_try_triggered by assumption.
    unfold bind at 1. rewrite (Hrise fuel Hfuel). reflexivity.
  - eexists; eexists; intros fuel Hfuel.
    rewrite read_ultrasonic_try_triggered by assumption.
    unfold bind at 1. rewrite (Hrise fuel Hfuel). reflexivity.
Qed.

End Timeouts.

(** C3. With a clock reading past the 0.1 s deadline at most [n] turns
    away:
    - on an initialised ranging port whose trigger pulse goes out, when
      every sample taken before the rising-edge wait times out is low,
      the wait ends and the read returns (0.0, ReadError);
    - likewise, when the rising edge was seen and every sample taken
      before the falling-edge wait times out is high, the read returns
      (0.0, ReadError);
    - and whatever the port, the echo line and the drivers do, as long as
      the clock keeps moving the read returns a value: any fuel above [n]
      is enough, so the read does not poll for ever. *)
Theorem ranging_read_times_out (self : SensorReader.t) (hw : hardware)
    (st : state) (n : nat) :
  (pulse_sent self hw ->
   deadline_within hw (n_time st) n ->
   no_rising_edge hw (n_input st) (n_time st) ->
   exists st',
     forall fuel, n < fuel ->
       read_ultrasonic fuel self hw st
       = Some (Val (0.0%float, ReadError), st'))
  /\ (forall r,
        pulse_sent self hw ->
        rising_edge_at hw (n_input st) (n_time st) r ->
        deadline_within hw (n_time st + r) n ->
        no_falling_edge hw (n_input st) (n_time st) r ->
        exists st',
          forall fuel, r < fuel -> n < fuel ->
            read_ultrasonic fuel self hw st
            = Some (Val (0.0%float, ReadError), st'))
  /\ (clock_advances hw (n_time st) n ->
      exists out st',
        forall fuel, n < fuel ->
          read_ultrasonic fuel self hw st = Some (Val out, st')).
Proof.
  split; [|split].
  - intros (Hen & Hhi & Hlo) Hd Hlow.
    destruct (no_rising_edge_times_out hw st n Hd Hlow) as (st' & Hrun).
    exists st'. intros fuel Hfuel.
    unfold read_ultrasonic. rewrite Hen. cbn [negb]. unfold try_except.
    rewrite read_ultrasonic_try_triggered by assumption.
    unfold bind at 1. rewrite (Hrun fuel Hfuel). reflexivity.
  - intros r (Hen & Hhi & Hlo) Hrise Hd Hhigh.
    set (s1 := sampled ECHO_PIN (polled r (triggered st))).
    destruct (no_falling_edge_times_out hw (n_input st) (n_time st) r n s1)
      as (st' & Hrun); auto.
    + subst s1. destruct (polled_counters r (triggered st)) as [Hi _].
      cbn [n_input sampled]. rewrite Hi. cbn. lia.
    + subst s1. destruct (polled_counters r (triggered st)) as [_ Ht].
      cbn [n_time sampled]. rewrite Ht. cbn. lia.
    + exists st'. intros fuel Hr Hfuel.
      unfold read_ultrasonic. rewrite Hen. cbn [negb]. unfold try_except.
      rewrite read_ultrasonic_try_triggered by assumption.
      unfold bind at 1. rewrite (rising_edge_seen hw st r fuel Hrise Hr).
      unfold bind. fold s1. rewrite (Hrun fuel Hfuel). reflexivity.
  - apply read_ultrasonic_returns.
Qed.

Lemma ranging_read_times_out_witness :
  (exists st',
     forall fuel, 2 < fuel ->
       read_ultrasonic fuel ready silent_echo initial_state
       = Some (Val (0.0%float, ReadError), st'))
  /\ (exists st',
        forall fuel, 0 < fuel -> 2 < fuel ->
          read_ultrasonic fuel ready stuck_echo initial_state
          = Some (Val (0.0%float, ReadError), st'))
  /\ (exists out st',
        forall fuel, 1 < fuel ->
          read_ultrasonic fuel ready brisk_clock initial_state
          = Some (Val out, st')).
Proof.
  split; [|split].
  - apply (proj1 (ranging_read_times_out ready silent_echo initial_state 2)).
    + repeat split.
    + exists 2. split; [lia | reflexivity].
    + intros k _. reflexivity.
  - apply (proj1 (proj2 (ranging_read_times_out ready stuck_echo
                           initial_state 2)) 0).
    + repeat split.
    + split; [intros k Hk; lia | reflexivity].
    + exists 2. split; [lia | reflexivity].
    + intros m _. reflexivity.
  - apply (proj2 (proj2 (ranging_read_times_out ready brisk_clock
                           initial_state 1))).
    intros r Hr. exists 0. split; [lia|].
    destruct r as [|[|r]]; [reflexivity | reflexivity | lia].
Defined.

(** ** C5: the three reads do not interfere *)

Lemma same_counters_refl (st : state) : same_counters st st.
Proof. split; reflexivity. Qed.

Lemma same_bind {A B} (m1 m2 : M A) (f1 f2 : A -> M B) (st1 st2 : state) :
  same_outcome (m1 st1) (m2 st2) ->
  (forall a s1 s2, same_counters s1 s2 -> same_outcome (f1 a s1) (f2 a s2)) ->
  same_outcome (bind m1 f1 st1) (bind m2 f2 st2).
Proof.
  unfold bind, same_outcome at 1.
  destruct (m1 st1) as [[[a1|e1] s1]|], (m2 st2) as [[[a2|e2] s2]|];
    try tauto; intros [Hr Hs] Hf; inversion Hr; subst.
  - apply Hf, Hs.
  - split; auto.
Qed.

Lemma same_try_except {A} (m1 m2 : M A) (h1 h2 : exn -> M A)
    (st1 st2 : state) :
  same_outcome (m1 st1) (m2 st2) ->
  (forall e s1 s2, same_counters s1 s2 -> same_outcome (h1 e s1) (h2 e s2)) ->
  same_outcome (try_except m1 h1 st1) (try_except m2 h2 st2).
Proof.
  unfold try_except, same_outcome at 1.
  destruct (m1 st1) as [[[a1|e1] s1]|], (m2 st2) as [[[a2|e2] s2]|];
    try tauto; intros [Hr Hs] Hh; inversion Hr; subst.
  - split; auto.
  - apply Hh, Hs.
Qed.

Lemma same_ret {A} (a : A) (s1 s2 : state) :
  same_counters s1 s2 -> same_outcome (ret a s1) (ret a s2).
Proof. intros H. split; auto. Qed.

Lemma same_access {A} (ev1 ev2 : event) (r : result A) (s1 s2 : state) :
  same_counters s1 s2 -> same_outcome (access ev1 r s1) (access ev2 r s2).
Proof. intros H. split; auto. Qed.

Lemma same_read_dht11 (self : SensorReader.t) (hw1 hw2 : hardware)
    (s1 s2 : state) :
  same_dht hw1 hw2 -> same_counters s1 s2 ->
  same_outcome (read_dht11 self hw1 s1) (read_dht11 self hw2 s2).
Proof.
  intros [Ht Hh] Hs. unfold read_dht11.
  destruct (dht_sensor self); [|now apply same_ret].
  apply same_try_except.
  - unfold read_dht11_try. rewrite Ht, Hh.
    apply same_bind; [now apply same_access|]. intros t a1 a2 Ha.
    apply same_bind; [now apply same_access|]. intros h b1 b2 Hb.
    destruct t, h; now apply same_ret.
  - intros e a1 a2 Ha. unfold read_dht11_except.
    destruct (isinstance_RuntimeError e); [now apply same_ret|].
    apply same_bind; [now apply same_access|]. intros _ b1 b2 Hb.
    now apply same_ret.
Qed.

Lemma same_read_ina219 (self : SensorReader.t) (hw1 hw2 : hardware)
    (s1 s2 : state) :
  same_ina hw1 hw2 -> same_counters s1 s2 ->
  same_outcome (read_ina219 self hw1 s1) (read_ina219 self hw2 s2).
Proof.
  intros (Hv & Hc & Hp) Hs. unfold read_ina219.
  destruct (ina219 self); [|now apply same_ret].
  apply same_try_except.
  - unfold read_ina219_try. rewrite Hv, Hc, Hp.
    apply same_bind; [now apply same_access|]. intros v a1 a2 Ha.
    apply same_bind; [now apply same_access|]. intros c b1 b2 Hb.
    apply same_bind; [now apply same_access|]. intros p c1 c2 Hc'.
    now apply same_ret.
  - intros e a1 a2 Ha. unfold read_ina219_except.
    apply same_bind; [now apply same_access|]. intros _ b1 b2 Hb.
    now apply same_ret.
Qed.

Section SameRanging.

Variables hw1 hw2 : hardware.
Hypothesis Hsame : same_ranging hw1 hw2.

Lemma same_GPIO_input (pin : Z) (s1 s2 : state) :
  same_counters s1 s2 ->
  same_outcome (GPIO_input hw1 pin s1) (GPIO_input hw2 pin s2).
Proof.
  intros [Hi Ht]. destruct Hsame as (_ & Hin & _).
  unfold GPIO_input; cbn. rewrite Hi, Hin. repeat split; cbn; congruence.
Qed.

Lemma same_time_time (s1 s2 : state) :
  same_counters s1 s2 ->
  same_outcome (time_time hw1 s1) (time_time hw2 s2).
Proof.
  intros [Hi Ht]. destruct Hsame as (_ & _ & Hclock).
  unfold time_time; cbn. rewrite Ht, Hclock. repeat split; cbn; congruence.
Qed.

Lemma same_GPIO_output (pin : Z) (level : bool) (s1 s2 : state) :
  same_counters s1 s2 ->
  same_outcome (GPIO_output hw1 pin level s1) (GPIO_output hw2 pin level s2).
Proof.
  intros Hs. destruct Hsame as (Hout & _). unfold GPIO_output.
  rewrite Hout. now apply same_access.
Qed.

Lemma same_wait_rising (fuel : nat) :
  forall (t0 ps : float) (s1 s2 : state),
    same_counters s1 s2 ->
    same_outcome (wait_rising fuel hw1 t0 ps s1) (wait_rising fuel hw2 t0 ps s2).
Proof.
  induction fuel as [|fuel IH]; intros t0 ps s1 s2 Hs; [exact I|].
  cbn [wait_rising].
  apply same_bind; [now apply same_GPIO_input|]. intros level a1 a2 Ha.
  destruct level; cbn [negb]; [now apply same_ret|].
  apply same_bind; [now apply same_time_time|]. intros now_ b1 b2 Hb.
  destruct (0.1 <? now_ - t0)%float; [now apply same_ret | now apply IH].
Qed.

Lemma same_wait_falling (fuel : nat) :
  forall (ps pe : float) (s1 s2 : state),
    same_counters s1 s2 ->
    same_outcome (wait_falling fuel hw1 ps pe s1)
      (wait_falling fuel hw2 ps pe s2).
Proof.
  induction fuel as [|fuel IH]; intros ps pe s1 s2 Hs; [exact I|].
  cbn [wait_falling].
  apply same_bind; [now apply same_GPIO_input|]. intros level a1 a2 Ha.
  destruct level; [|now apply same_ret].
  apply same_bind; [now apply same_time_time|]. intros now_ b1 b2 Hb.
  destruct (0.1 <? now_ - ps)%float; [now apply same_ret | now apply IH].
Qed.

Lemma same_read_ultrasonic (fuel : nat) (self : SensorReader.t)
    (s1 s2 : state) :
  same_counters s1 s2 ->
  same_outcome (read_ultrasonic fuel self hw1 s1)
    (read_ultrasonic fuel self hw2 s2).
Proof.
  intros Hs. unfold read_ultrasonic.
  destruct (negb (ultrasonic_enabled self)); [now apply same_ret|].
  apply same_try_except.
  - unfold read_ultrasonic_try.
    apply same_bind; [now apply same_GPIO_output|]. intros _ a1 a2 Ha.
    apply same_bind; [now apply same_access|]. intros _ b1 b2 Hb.
    apply same_bind; [now apply same_GPIO_output|]. intros _ c1 c2 Hc.
    apply same_bind; [now apply same_time_time|]. intros t0 d1 d2 Hd.
    apply same_bind; [now apply same_wait_rising|]. intros rise e1 e2 He.
    destruct rise as [ps|]; [|now apply same_ret].
    apply same_bind; [now apply same_wait_falling|]. intros fall f1 f2 Hf.
    destruct fall; now apply same_ret.
  - intros e a1 a2 Ha. unfold read_ultrasonic_except.
    apply same_bind; [now apply same_access|]. intros _ b1 b2 Hb.
    now apply same_ret.
Qed.

End SameRanging.

Lemma read_dht11_frame (self : SensorReader.t) (hw : hardware) (st : state) :
  exists r st',
    read_dht11 self hw st = Some (Val r, st') /\ same_counters st st'.
Proof.
  unfold read_dht11. destruct (dht_sensor self).
  - run_monad.
    destruct (dht_temperature hw) as [[?|]|e]; cbn;
      try (destruct (isinstance_RuntimeError e); cbn);
      try (destruct (dht_humidity hw) as [[?|]|e']; cbn;
           try (destruct (isinstance_RuntimeError e'); cbn));
      eexists; eexists; (split; [reflexivity | split; reflexivity]).
  - eexists; eexists. split; [reflexivity | split; reflexivity].
Qed.

Lemma read_ina219_frame (self : SensorReader.t) (hw : hardware) (st : state) :
  exists r st',
    read_ina219 self hw st = Some (Val r, st') /\ same_counters st st'.
Proof.
  unfold read_ina219. destruct (ina219 self).
  - run_monad.
    destruct (ina_bus_voltage hw); cbn;
      try (destruct (ina_current hw); cbn);
      try (destruct (ina_power hw); cbn);
      eexists; eexists; (split; [reflexivity | split; reflexivity]).
  - eexists; eexists. split; [reflexivity | split; reflexivity].
Qed.

(** One cycle, read by read. *)
Lemma update_values_unfold (fuel : nat) (self : SensorReader.t)
    (hw : hardware) (start_time : float) (st : state) :
  update_values fuel self hw start_time st
  = match read_dht11 self hw st with
    | Some (Val (temp_c, hum, ds), sa) =>
        match read_ina219 self hw sa with
        | Some (Val (v, c, p, ist), sb) =>
            match read_ultrasonic fuel self hw sb with
            | Some (Val (d, us), sc) =>
                Some (Val {| temp := temp_c;
                             temp_f := (temp_c * 9.0 / 5.0 + 32.0)%float;
                             humidity := hum; dht_status := ds;
                             voltage := v; current := c; power := p;
                             ina_status := ist;
                             distance := d;
                             distance_in := (d / 2.54)%float;
                             ultrasonic_status := us;
                             timestamp := strftime (datetime_now hw);
                             uptime :=
                               (wall_clock hw (n_time sc) - start_time)%float |},
                      log DatetimeNow (clocked sc))
            | Some (Raise e, s) => Some (Raise e, s)
            | None => None
            end
        | Some (Raise e, s) => Some (Raise e, s)
        | None => None
        end
    | Some (Raise e, s) => Some (Raise e, s)
    | None => None
    end.
Proof.
  unfold update_values. unfold bind at 1.
  destruct (read_dht11 self hw st) as [[[[[temp_c hum] ds]|e] sa]|];
    try reflexivity.
  unfold bind at 1.
  destruct (read_ina219 self hw sa) as [[[[[[v c] p] ist]|e] sb]|];
    try reflexivity.
  unfold bind at 1.
  destruct (read_ultrasonic fuel self hw sb) as [[[[d us]|e] sc]|];
    reflexivity.
Qed.

(** C5. One cycle reads the three ports one after the other, and what it
    publishes for a port depends on that port's device only:
    - two cycles whose hardware differs only in the DHT11 publish the
      same INA219 and ranging fields (or both have not finished);
    - two cycles whose hardware differs only in the INA219 publish the
      same DHT11 and ranging fields;
    - two cycles that agree on the DHT11 and the INA219, whatever the
      echo line and the clock do in each, publish the same DHT11 and
      INA219 fields when they finish. *)
Theorem reads_do_not_interfere (self : SensorReader.t) (hw1 hw2 : hardware)
    (start_time : float) (st : state) :
  (forall fuel,
     same_ina hw1 hw2 -> same_ranging hw1 hw2 ->
     published (fun n => (ina_fields n, ranging_fields n))
       (update_values fuel self hw1 start_time st)
     = published (fun n => (ina_fields n, ranging_fields n))
         (update_values fuel self hw2 start_time st))
  /\ (forall fuel,
        same_dht hw1 hw2 -> same_ranging hw1 hw2 ->
        published (fun n => (dht_fields n, ranging_fields n))
          (update_values fuel self hw1 start_time st)
        = published (fun n => (dht_fields n, ranging_fields n))
            (update_values fuel self hw2 start_time st))
  /\ (forall fuel1 fuel2 n1 s1 n2 s2,
        same_dht hw1 hw2 -> same_ina hw1 hw2 ->
        update_values fuel1 self hw1 start_time st = Some (Val n1, s1) ->
        update_values fuel2 self hw2 start_time st = Some (Val n2, s2) ->
        dht_fields n1 = dht_fields n2 /\ ina_fields n1 = ina_fields n2).
Proof.
  split; [|split].
  - intros fuel Hina Hrng. rewrite !update_values_unfold.
    destruct (read_dht11_frame self hw1 st) as ([[t1 h1] d1] & a1 & -> & Ha1).
    destruct (read_dht11_frame self hw2 st) as ([[t2 h2] d2] & a2 & -> & Ha2).
    assert (Ha : same_counters a1 a2)
      by (unfold same_counters in *; intuition congruence).
    pose proof (same_read_ina219 self hw1 hw2 a1 a2 Hina Ha) as Hi.
    destruct (read_ina219 self hw1 a1) as [[[[[[v1 c1] p1] i1]|e1] b1]|],
             (read_ina219 self hw2 a2) as [[[[[[v2 c2] p2] i2]|e2] b2]|];
      cbn in Hi; try tauto; destruct Hi as [Hr Hb]; inversion Hr; subst;
      try reflexivity.
    pose proof (same_read_ultrasonic hw1 hw2 Hrng fuel self b1 b2 Hb) as Hu.
    destruct (read_ultrasonic fuel self hw1 b1) as [[[[u1 w1]|e1] g1]|],
             (read_ultrasonic fuel self hw2 b2) as [[[[u2 w2]|e2] g2]|];
      cbn in Hu; try tauto; destruct Hu as [Hr' Hg]; inversion Hr'; subst;
      reflexivity.
  - intros fuel Hdht Hrng. rewrite !update_values_unfold.
    pose proof (same_read_dht11 self hw1 hw2 st st Hdht (same_counters_refl st))
      as Hd.
    destruct (read_dht11 self hw1 st) as [[[[[t1 h1] d1]|e1] a1]|],
             (read_dht11 self hw2 st) as [[[[[t2 h2] d2]|e2] a2]|];
      cbn in Hd; try tauto; destruct Hd as [Hr Ha]; inversion Hr; subst;
      try reflexivity.
    destruct (read_ina219_frame self hw1 a1)
      as ([[[v1 c1] p1] i1] & b1 & -> & Hb1).
    destruct (read_ina219_frame self hw2 a2)
      as ([[[v2 c2] p2] i2] & b2 & -> & Hb2).
    assert (Hb : same_counters b1 b2)
      by (unfold same_counters in *; intuition congruence).
    pose proof (same_read_ultrasonic hw1 hw2 Hrng fuel self b1 b2 Hb) as Hu.
    destruct (read_ultrasonic fuel self hw1 b1) as [[[[u1 w1]|e1] g1]|],
             (read_ultrasonic fuel self hw2 b2) as [[[[u2 w2]|e2] g2]|];
      cbn in Hu; try tauto; destruct Hu as [Hr' Hg]; inversion Hr'; subst;
      reflexivity.
  - intros fuel1 fuel2 n1 s1 n2 s2 Hdht Hina. rewrite !update_values_unfold.
    pose proof (same_read_dht11 self hw1 hw2 st st Hdht (same_counters_refl st))
      as Hd.
    destruct (read_dht11 self hw1 st) as [[[[[t1 h1] d1]|e1] a1]|],
             (read_dht11 self hw2 st) as [[[[[t2 h2] d2]|e2] a2]|];
      cbn in Hd; try contradiction; try (intros; discriminate);
      destruct Hd as [Hr Ha]; inversion Hr; subst.
    pose proof (same_read_ina219 self hw1 hw2 a1 a2 Hina Ha) as Hi.
    destruct (read_ina219 self hw1 a1) as [[[[[[v1 c1] p1] i1]|e1] b1]|],
             (read_ina219 self hw2 a2) as [[[[[[v2 c2] p2] i2]|e2] b2]|];
      cbn in Hi; try contradiction; try (intros; discriminate);
      destruct Hi as [Hr' Hb]; inversion Hr'; subst.
    destruct (read_ultrasonic fuel1 self hw1 b1) as [[[[u1 w1]|e1] g1]|],
             (read_ultrasonic fuel2 self hw2 b2) as [[[[u2 w2]|e2] g2]|];
      try (intros; discriminate).
    intros H1 H2. inversion H1; inversion H2; subst. split; reflexivity.
Qed.

Lemma reads_do_not_interfere_witness :
  published (fun n => (ina_fields n, ranging_fields n))
    (update_values 10 ready bench 3.0%float initial_state)
  = published (fun n => (ina_fields n, ranging_fields n))
      (update_values 10 ready
         (with_dht bench (Raise RuntimeError) (Val None))
         3.0%float initial_state)
  /\ published (fun n => (dht_fields n, ranging_fields n))
       (update_values 10 ready bench 3.0%float initial_state)
     = published (fun n => (dht_fields n, ranging_fields n))
         (update_values 10 ready
            (with_ina bench (Raise OSError) (Val 0.0%float) (Val 0.0%float))
            3.0%float initial_state)
  /\ exists n1 s1 n2 s2,
       update_values 10 ready bench 3.0%float initial_state = Some (Val n1, s1)
       /\ update_values 5 ready silent_echo 3.0%float initial_state
          = Some (Val n2, s2)
       /\ (dht_status n2, ina_status n2, ultrasonic_status n2)
          = (Ok, Ok, ReadError)
       /\ dht_fields n1 = dht_fields n2 /\ ina_fields n1 = ina_fields n2.
Proof.
  split; [|split].
  - apply (proj1 (reads_do_not_interfere ready bench
                    (with_dht bench (Raise RuntimeError) (Val None))
                    3.0%float initial_state) 10);
      repeat split.
  - apply (proj1 (proj2 (reads_do_not_interfere ready bench
                    (with_ina bench (Raise OSError) (Val 0.0%float)
                       (Val 0.0%float))
                    3.0%float initial_state)) 10);
      repeat split.
  - do 4 eexists.
    split; [lazy; reflexivity|]. split; [lazy; reflexivity|].
    split; [reflexivity|].
    eapply (proj2 (proj2 (reads_do_not_interfere ready bench silent_echo
                            3.0%float initial_state)) 10 5);
      [repeat split | repeat split | lazy; reflexivity | lazy; reflexivity].
Defined.

(** ** C7 and C8: the derived values *)

(** C7. Whatever the three reads return, statuses included, the cycle
    goes on to derive and publish: the Fahrenheit temperature is
    [temp * 9.0 / 5.0 + 32.0] and the distance in inches is
    [distance / 2.54], in binary64 arithmetic and in that order of
    operations, computed from the very readings the reads returned.  A
    reading that is not Ok has a zero payload, so it is published as
    32.0 F or 0.0 in; 100.0 C is published as 212.0 F and 254.0 cm as
    100.0 in.  The same relations hold between the fields of whatever a
    cycle publishes. *)
Theorem derived_values (fuel : nat) (self : SensorReader.t) (hw : hardware)
    (start_time : float) (st : state) :
  (forall t h ds sa v c p ist sb d us sc,
     read_dht11 self hw st = Some (Val (t, h, ds), sa) ->
     read_ina219 self hw sa = Some (Val (v, c, p, ist), sb) ->
     read_ultrasonic fuel self hw sb = Some (Val (d, us), sc) ->
     exists n,
       update_values fuel self hw start_time st
       = Some (Val n, log DatetimeNow (clocked sc))
       /\ dht_fields n = (t, (t * 9.0 / 5.0 + 32.0)%float, h, ds)
       /\ ina_fields n = (v, c, p, ist)
       /\ ranging_fields n = (d, (d / 2.54)%float, us)
       /\ (ds <> Ok -> t = 0.0%float /\ temp_f n = 32.0%float)
       /\ (us <> Ok -> d = 0.0%float /\ distance_in n = 0.0%float)
       /\ (t = 100.0%float -> temp_f n = 212.0%float)
       /\ (d = 254.0%float -> distance_in n = 100.0%float))
  /\ (forall n st',
        update_values fuel self hw start_time st = Some (Val n, st') ->
        temp_f n = (temp n * 9.0 / 5.0 + 32.0)%float
        /\ distance_in n = (distance n / 2.54)%float
        /\ (dht_status n <> Ok -> temp n = 0.0%float /\ temp_f n = 32.0%float)
        /\ (ultrasonic_status n <> Ok ->
            distance n = 0.0%float /\ distance_in n = 0.0%float)
        /\ (temp n = 100.0%float -> temp_f n = 212.0%float)
        /\ (distance n = 254.0%float -> distance_in n = 100.0%float)).
Proof.
  split.
  - intros t h ds sa v c p ist sb d us sc Hd Hi Hu.
    rewrite update_values_unfold, Hd, Hi, Hu.
    eexists. split; [reflexivity|]. cbn.
    repeat split.
    + now destruct (read_dht11_payload _ _ _ _ _ _ _ Hd H) as [-> _].
    + now destruct (read_dht11_payload _ _ _ _ _ _ _ Hd H) as [-> _].
    + exact (read_ultrasonic_payload _ _ _ _ _ _ _ Hu H).
    + now rewrite (read_ultrasonic_payload _ _ _ _ _ _ _ Hu H).
    + intros ->. reflexivity.
    + intros ->. reflexivity.
  - intros n st'. rewrite update_values_unfold.
    destruct (read_dht11 self hw st) as [[[[[t h] ds]|e] sa]|] eqn:Hd;
      try discriminate.
    destruct (read_ina219 self hw sa) as [[[[[[v c] p] ist]|e] sb]|] eqn:Hi;
      try discriminate.
    destruct (read_ultrasonic fuel self hw sb) as [[[[d us]|e] sc]|] eqn:Hu;
      try discriminate.
    intros H; inversion H; subst; clear H. cbn.
    repeat split.
    + now destruct (read_dht11_payload _ _ _ _ _ _ _ Hd H) as [-> _].
    + now destruct (read_dht11_payload _ _ _ _ _ _ _ Hd H) as [-> _].
    + exact (read_ultrasonic_payload _ _ _ _ _ _ _ Hu H).
    + now rewrite (read_ultrasonic_payload _ _ _ _ _ _ _ Hu H).
    + intros ->. reflexivity.
    + intros ->. reflexivity.
Qed.

Lemma derived_values_witness :
  (exists n st',
     update_values 5 ready
       (with_dht silent_echo (Raise RuntimeError) (Val None))
       3.0%float initial_state
     = Some (Val n, st')
     /\ (dht_status n, ina_status n, ultrasonic_status n)
        = (ReadError, Ok, ReadError)
     /\ temp n = 0.0%float /\ temp_f n = 32.0%float
     /\ distance n = 0.0%float /\ distance_in n = 0.0%float)
  /\ (exists n st',
        update_values 10 ready bench 3.0%float initial_state = Some (Val n, st')
        /\ temp n = 100.0%float /\ temp_f n = 212.0%float
        /\ distance n = 254.0%float /\ distance_in n = 100.0%float).
Proof.
  split.
  - edestruct (proj1 (derived_values 5 ready
                        (with_dht silent_echo (Raise RuntimeError) (Val None))
                        3.0%float initial_state))
      as (n & Hrun & Hd & Hi & Hr & Hnd & Hnu & _);
      [lazy; reflexivity | lazy; reflexivity | lazy; reflexivity |].
    exists n. eexists. split; [exact Hrun|].
    unfold dht_fields in Hd. unfold ina_fields in Hi.
    unfold ranging_fields in Hr.
    injection Hd as Ht Htf Hh Hds. injection Hi as Hv Hc Hp His.
    injection Hr as Hdist Hdin Hus.
    split; [rewrite Hds, His, Hus; reflexivity|].
    destruct Hnd as [_ Hf]; [discriminate|].
    destruct Hnu as [_ Hin]; [discriminate|].
    split; [exact Ht|]. split; [exact Hf|].
    split; [exact Hdist | exact Hin].
  - edestruct (proj1 (derived_values 10 ready bench 3.0%float initial_state))
      as (n & Hrun & Hd & Hi & Hr & _ & _ & Hf & Hin);
      [lazy; reflexivity | lazy; reflexivity | lazy; reflexivity |].
    exists n. eexists. split; [exact Hrun|].
    unfold dht_fields in Hd. unfold ranging_fields in Hr.
    injection Hd as Ht Htf Hh Hds. injection Hr as Hdist Hdin Hus.
    split; [exact Ht|]. split; [exact (Hf eq_refl)|].
    split; [exact Hdist | exact (Hin eq_refl)].
Defined.

(** C8, as the code has it.  For two cycles that finish: the Fahrenheit
    temperature and the distance in inches are functions of the published
    temperature and distance alone; the uptime is the clock reading taken
    after the three reads minus [start_time], and the timestamp formats
    [datetime.now()], so these two agree when those readings of the clock
    agree. *)
Theorem derived_values_determined (fuel1 fuel2 : nat)
    (self1 self2 : SensorReader.t) (hw1 hw2 : hardware)
    (start1 start2 : float) (st1 st2 : state) (n1 n2 : nodes)
    (s1 s2 : state) :
  update_values fuel1 self1 hw1 start1 st1 = Some (Val n1, s1) ->
  update_values fuel2 self2 hw2 start2 st2 = Some (Val n2, s2) ->
  (temp n1 = temp n2 -> temp_f n1 = temp_f n2)
  /\ (distance n1 = distance n2 -> distance_in n1 = distance_in n2)
  /\ uptime n1 = (wall_clock hw1 (n_time s1 - 1) - start1)%float
  /\ timestamp n1 = strftime (datetime_now hw1)
  /\ (start1 = start2 ->
      wall_clock hw1 (n_time s1 - 1) = wall_clock hw2 (n_time s2 - 1) ->
      uptime n1 = uptime n2)
  /\ (datetime_now hw1 = datetime_now hw2 -> timestamp n1 = timestamp n2).
Proof.
  rewrite !update_values_unfold.
  destruct (read_dht11 self1 hw1 st1) as [[[[[t h] ds]|e] sa]|];
    try discriminate.
  destruct (read_ina219 self1 hw1 sa) as [[[[[[v c] p] ist]|e] sb]|];
    try discriminate.
  destruct (read_ultrasonic fuel1 self1 hw1 sb) as [[[[d us]|e] sc]|];
    try discriminate.
  destruct (read_dht11 self2 hw2 st2) as [[[[[t' h'] ds']|e] sa']|];
    try discriminate.
  destruct (read_ina219 self2 hw2 sa') as [[[[[[v' c'] p'] ist']|e] sb']|];
    try discriminate.
  destruct (read_ultrasonic fuel2 self2 hw2 sb') as [[[[d' us']|e] sc']|];
    try discriminate.
  intros H1 H2; inversion H1; inversion H2; subst; clear H1 H2.
  cbn [temp temp_f distance distance_in uptime timestamp n_time log clocked
       Nat.sub].
  rewrite !Nat.sub_0_r.
  repeat split; congruence.
Qed.

Lemma derived_values_determined_witness :
  exists n1 s1 n2 s2,
    update_values 10 ready bench 3.0%float initial_state = Some (Val n1, s1)
    /\ update_values 10 ready
         (with_ina bench (Val 12.0%float) (Val 0.0%float) (Val 0.0%float))
         3.0%float (clocked initial_state)
       = Some (Val n2, s2)
    /\ temp_f n1 = temp_f n2
    /\ timestamp n1 = timestamp n2.
Proof.
  do 4 eexists. split; [lazy; reflexivity|]. split; [lazy; reflexivity|].
  destruct (derived_values_determined 10 10 ready ready bench
              (with_ina bench (Val 12.0%float) (Val 0.0%float) (Val 0.0%float))
              3.0%float 3.0%float initial_state (clocked initial_state)
              _ _ _ _ ltac:(lazy; reflexivity) ltac:(lazy; reflexivity))
    as (Hf & _ & _ & _ & _ & Hts).
  split; [exact (Hf eq_refl) | exact (Hts eq_refl)].
Defined.

(** The statement of C8 fails on the code.  Three cycles on the same
    reader with the same start time, the same sensor answers and the same
    clock readings during the three reads publish the same values and
    statuses for the three ports.  Yet the second publishes another
    uptime, and the third, whose [time.time()] readings are all those of
    the first, another timestamp: the derivation reads the clock itself,
    twice. *)
Lemma derived_values_read_the_clock :
  exists n1 s1 n2 s2 n3 s3,
    update_values 10 ready bench 3.0%float initial_state = Some (Val n1, s1)
    /\ update_values 10 ready later_clock 3.0%float initial_state
       = Some (Val n2, s2)
    /\ update_values 10 ready later_datetime 3.0%float initial_state
       = Some (Val n3, s3)
    /\ (dht_fields n1, ina_fields n1, ranging_fields n1)
       = (dht_fields n2, ina_fields n2, ranging_fields n2)
    /\ (dht_fields n1, ina_fields n1, ranging_fields n1)
       = (dht_fields n3, ina_fields n3, ranging_fields n3)
    /\ uptime n1 <> uptime n2
    /\ uptime n1 = uptime n3
    /\ timestamp n1 <> timestamp n3.
Proof.
  do 6 eexists. split; [lazy; reflexivity|]. split; [lazy; reflexivity|].
  split; [lazy; reflexivity|].
  repeat split.
  - cbn. intros H.
    apply (f_equal (fun x => (x <? 50.0)%float)) in H. discriminate.
  - cbn. discriminate.
Qed.

(** * More of the code *)

(** ** [SensorReader.__init__] and [cleanup] *)

(** X1. [__init__] never raises and always builds a reader.  Each of its
    three fields records the outcome of its own driver alone (unset
    exactly when that construction raised), all three constructions are
    attempted whatever the earlier ones did, and neither the echo line nor
    the clock is touched. *)
Theorem init_isolates_failures (hw : hardware) (st : state) :
  exists self st' attempts,
    __init__ hw st = Some (Val self, st')
    /\ (dht_sensor self = None <-> exists e, new_DHT11 hw = Raise e)
    /\ (ina219 self = None <-> exists e, new_INA219 hw = Raise e)
    /\ (ultrasonic_enabled self = false <-> exists e, setup_GPIO hw = Raise e)
    /\ same_counters st st'
    /\ trace st' = attempts ++ trace st
    /\ In NewDHT11 attempts /\ In NewINA219 attempts
    /\ In SetupGPIO attempts.
Proof.
  unfold __init__. run_monad.
  destruct (new_DHT11 hw) as [d|e1], (new_INA219 hw) as [i|e2],
    (setup_GPIO hw) as [u|e3]; cbn;
    eexists; eexists;
    match goal with
    | |- exists l, Some (_, ?s) = _ /\ _ =>
        match eval cbn in (trace s) with
        | ?a :: ?b :: ?c :: ?d :: ?e :: ?f :: trace st =>
            exists [a; b; c; d; e; f]
        | ?a :: ?b :: ?c :: ?d :: ?e :: trace st => exists [a; b; c; d; e]
        | ?a :: ?b :: ?c :: ?d :: trace st => exists [a; b; c; d]
        | ?a :: ?b :: ?c :: trace st => exists [a; b; c]
        end
    end;
    (split; [reflexivity|]); cbn;
    repeat split; try discriminate; try (intros (e & He); discriminate);
    eauto 10.
Qed.

Lemma update_values_value (fuel : nat) (self : SensorReader.t)
    (hw : hardware) (start_time : float) (st : state)
    (out : result nodes) (st' : state) :
  update_values fuel self hw start_time st = Some (out, st') ->
  exists v, out = Val v.
Proof.
  rewrite update_values_unfold.
  destruct (read_dht11_returns self hw st) as ([[t h] ds] & sa & ->).
  destruct (read_ina219_returns self hw sa) as ([[[v c] p] ist] & sb & ->).
  destruct (read_ultrasonic fuel self hw sb) as [[[[d us]|e] sc]|] eqn:Hu.
  - intros H; inversion H; eauto.
  - apply read_ultrasonic_value in Hu. destruct Hu; discriminate.
  - discriminate.
Qed.

(** X2. No read lets an exception out.  [read_dht11] and [read_ina219]
    always return a reading and a status; [read_ultrasonic] and a whole
    cycle of [update_values] return values whenever they return. *)
Theorem reads_absorb_exceptions (self : SensorReader.t) (hw : hardware)
    (st : state) :
  (exists r st', read_dht11 self hw st = Some (Val r, st'))
  /\ (exists r st', read_ina219 self hw st = Some (Val r, st'))
  /\ (forall fuel out st',
        read_ultrasonic fuel self hw st = Some (out, st') ->
        exists r, out = Val r)
  /\ (forall fuel start_time out st',
        update_values fuel self hw start_time st = Some (out, st') ->
        exists v, out = Val v).
Proof.
  split; [apply read_dht11_returns|]. split; [apply read_ina219_returns|].
  split; [intros fuel out st'; apply read_ultrasonic_value|].
  intros fuel start_time out st'. apply update_values_value.
Qed.

Lemma reads_absorb_exceptions_witness :
  exists r, Val (0.0%float, SensorUnavailable) = Val r.
Proof.
  apply (proj1 (proj2 (proj2 (reads_absorb_exceptions ready
                  (with_gpio bench (fun _ => Raise OSError) (gpio_input bench))
                  initial_state))) 3 _
           (log (LoggerError "HC-SR04 error" OSError)
              (log (GpioOutput TRIG_PIN true) initial_state))).
  reflexivity.
Defined.

(** X3. The status codes each read can return: [read_dht11] never reports
    3 (OutOfRange), [read_ina219] reports 0 or 2 only, and
    [read_ultrasonic] one of 0, 1, 2, 3. *)
Theorem statuses_returned (self : SensorReader.t) (hw : hardware)
    (st st' : state) :
  (forall t h s,
     read_dht11 self hw st = Some (Val (t, h, s), st') ->
     s = Ok \/ s = ReadError \/ s = SensorUnavailable)
  /\ (forall v c p s,
        read_ina219 self hw st = Some (Val (v, c, p, s), st') ->
        s = Ok \/ s = SensorUnavailable)
  /\ (forall fuel d s,
        read_ultrasonic fuel self hw st = Some (Val (d, s), st') ->
        s = Ok \/ s = ReadError \/ s = SensorUnavailable \/ s = OutOfRange).
Proof.
  unfold Ok, ReadError, SensorUnavailable, OutOfRange. split; [|split].
  - intros t h s. unfold read_dht11. destruct (dht_sensor self).
    + run_monad.
      destruct (dht_temperature hw) as [[?|]|e]; cbn;
        try (destruct (isinstance_RuntimeError e); cbn);
        try (destruct (dht_humidity hw) as [[?|]|e']; cbn;
             try (destruct (isinstance_RuntimeError e'); cbn));
        intros H; inversion H; auto.
    + unfold ret. intros H; inversion H; auto.
  - intros v c p s. unfold read_ina219. destruct (ina219 self).
    + run_monad.
      destruct (ina_bus_voltage hw); cbn;
        try (destruct (ina_current hw); cbn);
        try (destruct (ina_power hw); cbn);
        intros H; inversion H; auto.
    + unfold ret. intros H; inversion H; auto.
  - intros fuel d s. unfold read_ultrasonic.
    destruct (negb (ultrasonic_enabled self)).
    { unfold ret. intros H; inversion H; auto. }
    unfold try_except.
    destruct (read_ultrasonic_try fuel hw st) as [[[[d' s'] | e] s1]|] eqn:Hb;
      [| run_monad; intros H; inversion H; auto | discriminate].
    intros H; inversion H; subst. clear H. revert Hb.
    unfold read_ultrasonic_try. intros H.
    do 4 (apply bind_value in H; destruct H as (? & ? & _ & H)).
    apply bind_value in H; destruct H as (rise & ? & _ & H).
    destruct rise as [ps|]; [|unfold ret in H; inversion H; auto].
    apply bind_value in H; destruct H as (fall & ? & _ & H).
    destruct fall as [pe|]; [|unfold ret in H; inversion H; auto].
    unfold ret in H. inversion H as [Hd].
    destruct (distance_of_pulse_cases ps pe) as [(E & _)|(E & _)];
      rewrite E in Hd; unfold Ok, OutOfRange in Hd; inversion Hd; auto.
Qed.

Lemma statuses_returned_witness :
  (ReadError = Ok \/ ReadError = ReadError \/ ReadError = SensorUnavailable)
  /\ (SensorUnavailable = Ok \/ SensorUnavailable = SensorUnavailable)
  /\ (OutOfRange = Ok \/ OutOfRange = ReadError
      \/ OutOfRange = SensorUnavailable \/ OutOfRange = OutOfRange).
Proof.
  split; [|split].
  - apply (proj1 (statuses_returned ready
                    (with_dht bench (Val None) (Val (Some 40.0%float)))
                    initial_state
                    (log DhtHumidity (log DhtTemperature initial_state)))
             0.0%float 0.0%float).
    reflexivity.
  - apply (proj1 (proj2 (statuses_returned dead bench initial_state
                           initial_state))
             0.0%float 0.0%float 0.0%float).
    reflexivity.
  - apply (proj2 (proj2 (statuses_returned ready
                           (with_gpio bench (fun _ => Val tt)
                              (fun k => Val (Nat.eqb k 0)))
                           initial_state
                           (sampled ECHO_PIN
                              (sampled ECHO_PIN (triggered initial_state)))))
             3 0.0%float).
    reflexivity.
Defined.

(** X4. [read_dht11] on an initialised port validates no range: whatever
    two floats the driver reports are returned as they are with status 0.
    A partial reading, where either property is [None], is returned as
    zeros with status 1 after both properties were read.  When the
    temperature property raises, the humidity property is not read; a
    [RuntimeError] is not logged, any other exception is. *)
Theorem read_dht11_paths (self : SensorReader.t) (hw : hardware) (st : state) :
  dht_sensor self <> None ->
  (forall t h,
     dht_temperature hw = Val (Some t) -> dht_humidity hw = Val (Some h) ->
     read_dht11 self hw st
     = Some (Val (t, h, Ok), log DhtHumidity (log DhtTemperature st)))
  /\ (forall t h,
        dht_temperature hw = Val t -> dht_humidity hw = Val h ->
        t = None \/ h = None ->
        read_dht11 self hw st
        = Some (Val (0.0%float, 0.0%float, ReadError),
                log DhtHumidity (log DhtTemperature st)))
  /\ (forall e,
        dht_temperature hw = Raise e ->
        read_dht11 self hw st
        = if isinstance_RuntimeError e
          then Some (Val (0.0%float, 0.0%float, ReadError),
                     log DhtTemperature st)
          else Some (Val (0.0%float, 0.0%float, SensorUnavailable),
                     log (LoggerError "DHT11 error" e)
                       (log DhtTemperature st))).
Proof.
  intros Hinit. unfold read_dht11.
  destruct (dht_sensor self); [clear Hinit | congruence].
  split; [|split].
  - intros t h Ht Hh. run_monad. rewrite Ht; cbn. rewrite Hh; cbn. reflexivity.
  - intros t h Ht Hh Hnone. run_monad. rewrite Ht; cbn. rewrite Hh; cbn.
    destruct Hnone; subst; [|destruct t]; reflexivity.
  - intros e He. run_monad. rewrite He; cbn.
    destruct (isinstance_RuntimeError e); reflexivity.
Qed.

Lemma read_dht11_paths_witness :
  read_dht11 ready
    (with_dht bench (Val (Some (-300.0)%float)) (Val (Some 250.0%float)))
    initial_state
  = Some (Val ((-300.0)%float, 250.0%float, Ok),
          log DhtHumidity (log DhtTemperature initial_state))
  /\ read_dht11 ready
       (with_dht bench (Val (Some 21.0%float)) (Val None)) initial_state
     = Some (Val (0.0%float, 0.0%float, ReadError),
             log DhtHumidity (log DhtTemperature initial_state))
  /\ read_dht11 ready
       (with_dht bench (Raise RuntimeError) (Val (Some 40.0%float)))
       initial_state
     = Some (Val (0.0%float, 0.0%float, ReadError),
             log DhtTemperature initial_state).
Proof.
  assert (Hready : dht_sensor ready <> None) by discriminate.
  split; [|split].
  - apply (proj1 (read_dht11_paths ready
                    (with_dht bench (Val (Some (-300.0)%float))
                       (Val (Some 250.0%float)))
                    initial_state Hready)); reflexivity.
  - apply (proj1 (proj2 (read_dht11_paths ready
                    (with_dht bench (Val (Some 21.0%float)) (Val None))
                    initial_state Hready)) (Some 21.0%float) None);
      [reflexivity | reflexivity | right; reflexivity].
  - apply (proj2 (proj2 (read_dht11_paths ready
                    (with_dht bench (Raise RuntimeError)
                       (Val (Some 40.0%float)))
                    initial_state Hready)) RuntimeError).
    reflexivity.
Defined.

(** X5. [cleanup] releases the drivers that were constructed and no
    other: it calls [exit] on the DHT11 exactly when the driver exists,
    and [GPIO.cleanup] only when the HC-SR04 was set up; the INA219 is
    never released.  When no release raises, the releases made are the
    ones due, the DHT11 first.  When [exit] raises, the exception leaves
    [cleanup] and [GPIO.cleanup] is not called. *)
Theorem cleanup_releases (self : SensorReader.t) (td : teardown) :
  (In DhtExit (snd (cleanup self td)) <-> dht_sensor self <> None)
  /\ (In GpioCleanup (snd (cleanup self td)) -> ultrasonic_enabled self = true)
  /\ (fst (cleanup self td) = Val tt ->
      snd (cleanup self td) = due_releases self)
  /\ (forall e,
        dht_sensor self <> None -> dht_exit td = Raise e ->
        cleanup self td = (Raise e, [DhtExit])).
Proof.
  unfold cleanup, due_releases.
  destruct (dht_sensor self) as [d|], (ultrasonic_enabled self),
    (dht_exit td) as [[]|e1], (gpio_cleanup td) as [[]|e2]; cbn;
    repeat split; intros; try discriminate; try congruence;
    try tauto; try (intuition discriminate).
Qed.

Lemma cleanup_releases_witness :
  cleanup ready {| dht_exit := Val tt; gpio_cleanup := Val tt |}
  = (Val tt, [DhtExit; GpioCleanup])
  /\ cleanup ready
       {| dht_exit := Raise RuntimeError; gpio_cleanup := Val tt |}
     = (Raise RuntimeError, [DhtExit]).
Proof.
  split.
  - pose proof (proj1 (proj2 (proj2 (cleanup_releases ready
        {| dht_exit := Val tt; gpio_cleanup := Val tt |}))) eq_refl) as H.
    apply injective_projections; [reflexivity | exact H].
  - apply (proj2 (proj2 (proj2 (cleanup_releases ready
        {| dht_exit := Raise RuntimeError; gpio_cleanup := Val tt |})))
        RuntimeError); [discriminate | reflexivity].
Defined.

(** ** [read_ultrasonic]: what a returned status tells *)

(** In binary64, [x - x] is 0.0, or NaN when [x] is not finite. *)
Lemma sub_self (x : float) : (x - x)%float = 0.0%float \/ (x - x)%float = nan.
Proof.
  assert (H : Prim2SF (x - x) = S754_zero false \/ Prim2SF (x - x) = S754_nan).
  { rewrite sub_spec. unfold SF64sub, SFsub.
    destruct (Prim2SF x) as [s|s| |s m e]; auto.
    - destruct s; auto.
    - destruct s; auto.
    - left. cbv zeta. rewrite Z.sub_diag. reflexivity. }
  destruct H as [H|H]; [left|right]; apply Prim2SF_inj; rewrite H; reflexivity.
Qed.

Lemma distance_of_pulse_self (t : float) :
  distance_of_pulse t t = (0.0%float, OutOfRange).
Proof.
  unfold distance_of_pulse. destruct (sub_self t) as [-> | ->]; reflexivity.
Qed.

Section Exits.

Variable hw : hardware.

(** How the rising-edge wait can end with a value: at least one sample was
    taken; an edge comes with the timestamp held, a timeout with a last
    reading past the deadline. *)
Lemma wait_rising_exit (fuel : nat) :
  forall (t0 ps : float) (st : state) (ex : loop_exit) (st' : state),
    wait_rising fuel hw t0 ps st = Some (Val ex, st') ->
    n_input st < n_input st' /\ n_time st <= n_time st'
    /\ match ex with
       | Edge ts => ts = held hw (n_time st) (n_time st' - n_time st) ps
       | Timeout =>
           n_time st < n_time st'
           /\ (0.1 <? wall_clock hw (n_time st' - 1) - t0)%float = true
       end.
Proof.
  induction fuel as [|fuel IH]; intros t0 ps st ex st' H; [discriminate|].
  destruct (gpio_input hw (n_input st)) as [[|]|e] eqn:Hin.
  - rewrite wait_rising_edge in H by exact Hin. inversion H; subst.
    cbn [n_input n_time sampled]. rewrite Nat.sub_diag. cbn. repeat split; lia.
  - rewrite wait_rising_low in H by exact Hin.
    destruct (0.1 <? wall_clock hw (n_time st) - t0)%float eqn:Hnow.
    + inversion H; subst. cbn [n_input n_time sampled clocked].
      replace (S (n_time st) - 1) with (n_time st) by lia.
      repeat split; auto; lia.
    + apply IH in H. cbn [n_input n_time sampled clocked] in H.
      destruct H as (Hi & Ht & Hex). split; [lia|]. split; [lia|].
      destruct ex as [ts|].
      * rewrite Hex, held_shift with (initial := ps). f_equal. lia.
      * destruct Hex. split; [lia | assumption].
  - rewrite wait_rising_raise with (e := e) in H by exact Hin. discriminate.
Qed.

(** The falling-edge wait: an edge comes with the initial timestamp when
    no reading was taken, and otherwise with the last reading, which was
    not past the deadline. *)
Lemma wait_falling_exit (fuel : nat) :
  forall (ps pe : float) (st : state) (ex : loop_exit) (st' : state),
    wait_falling fuel hw ps pe st = Some (Val ex, st') ->
    n_input st < n_input st' /\ n_time st <= n_time st'
    /\ match ex with
       | Edge ts =>
           (n_time st' = n_time st /\ ts = pe)
           \/ (n_time st < n_time st'
               /\ ts = wall_clock hw (n_time st' - 1)
               /\ (0.1 <? ts - ps)%float = false)
       | Timeout =>
           n_time st < n_time st'
           /\ (0.1 <? wall_clock hw (n_time st' - 1) - ps)%float = true
       end.
Proof.
  induction fuel as [|fuel IH]; intros ps pe st ex st' H; [discriminate|].
  destruct (gpio_input hw (n_input st)) as [[|]|e] eqn:Hin.
  - rewrite wait_falling_high in H by exact Hin.
    destruct (0.1 <? wall_clock hw (n_time st) - ps)%float eqn:Hnow.
    + inversion H; subst. cbn [n_input n_time sampled clocked].
      replace (S (n_time st) - 1) with (n_time st) by lia.
      repeat split; auto; lia.
    + apply IH in H. cbn [n_input n_time sampled clocked] in H.
      destruct H as (Hi & Ht & Hex). split; [lia|]. split; [lia|].
      destruct ex as [ts|].
      * right. destruct Hex as [[Hsame Hts]|(Hlt & Hts & Hd)].
        -- rewrite Hsame.
           replace (S (n_time st) - 1) with (n_time st) by lia.
           subst ts. split; [lia|]. split; [reflexivity | exact Hnow].
        -- split; [lia|]. split; assumption.
      * destruct Hex. split; [lia | assumption].
  - rewrite wait_falling_edge in H by exact Hin. inversion H; subst.
    cbn [n_input n_time sampled]. split; [lia|]. split; [lia|]. left. auto.
  - rewrite wait_falling_raise with (e := e) in H by exact Hin. discriminate.
Qed.

(** A read that returns a status other than 2 sent its trigger pulse and
    went through the waits. *)
Lemma read_ultrasonic_measured (fuel : nat) (self : SensorReader.t)
    (st : state) (d : float) (s : Z) (st' : state) :
  read_ultrasonic fuel self hw st = Some (Val (d, s), st') ->
  s <> SensorUnavailable ->
  gpio_output hw true = Val tt /\ gpio_output hw false = Val tt
  /\ exists rise s1,
       wait_rising fuel hw (wall_clock hw (n_time st))
         (wall_clock hw (n_time st)) (triggered st)
       = Some (Val rise, s1)
       /\ match rise with
          | Timeout => (d, s) = (0.0%float, ReadError) /\ st' = s1
          | Edge ps =>
              exists fall,
                wait_falling fuel hw ps ps s1 = Some (Val fall, st')
                /\ match fall with
                   | Timeout => (d, s) = (0.0%float, ReadError)
                   | Edge pe => (d, s) = distance_of_pulse ps pe
                   end
          end.
Proof.
  unfold read_ultrasonic, SensorUnavailable.
  destruct (negb (ultrasonic_enabled self));
    [unfold ret; intros H Hs; inversion H; congruence|].
  unfold try_except.
  destruct (gpio_output hw true) as [[]|e] eqn:Hhi.
  2:{ unfold read_ultrasonic_try, GPIO_output, access. unfold bind at 1.
      rewrite Hhi. run_monad. intros H Hs; inversion H; congruence. }
  destruct (gpio_output hw false) as [[]|e] eqn:Hlo.
  2:{ unfold read_ultrasonic_try, GPIO_output, time_sleep, access.
      unfold bind at 1. rewrite Hhi.
      unfold bind at 1. unfold bind at 1. rewrite Hlo.
      run_monad. intros H Hs; inversion H; congruence. }
  rewrite read_ultrasonic_try_triggered by assumption.
  unfold bind at 1.
  destruct (wait_rising fuel hw _ _ (triggered st)) as [[[[ps|]|e] s1]|]
    eqn:Hrise; try discriminate.
  - unfold bind.
    destruct (wait_falling fuel hw ps ps s1) as [[[[pe|]|e] s2]|] eqn:Hfall;
      try discriminate.
    + unfold ret. intros H Hs; inversion H; subst.
      repeat split. exists (Edge ps), s1. split; [reflexivity|].
      exists (Edge pe). split; [exact Hfall | auto].
    + unfold ret. intros H Hs; inversion H; subst.
      repeat split. exists (Edge ps), s1. split; [reflexivity|].
      exists Timeout. split; [exact Hfall | auto].
    + run_monad. intros H Hs; inversion H; congruence.
  - unfold ret. intros H Hs; inversion H; subst.
    repeat split. exists Timeout, st'. split; [reflexivity | auto].
  - run_monad. intros H Hs; inversion H; congruence.
Qed.

End Exits.

Lemma held_reading (hw : hardware) (c k : nat) :
  held hw (S c) k (wall_clock hw c) = wall_clock hw (c + k).
Proof.
  destruct k as [|k]; cbn [held].
  - now rewrite Nat.add_0_r.
  - now rewrite Nat.add_succ_r.
Qed.

(** X6. [read_ultrasonic] never reports a timeout early: when it returns
    status 1 (ReadError), the last clock reading it took is more than
    0.1 s after an earlier reading of the same read, the one the wait was
    measured from. *)
Theorem read_error_only_after_deadline (fuel : nat) (self : SensorReader.t)
    (hw : hardware) (st : state) (d : float) (st' : state) :
  read_ultrasonic fuel self hw st = Some (Val (d, ReadError), st') ->
  exists i,
    n_time st <= i /\ i < n_time st' - 1
    /\ past_deadline hw i (n_time st' - 1) = true.
Proof.
  intros H.
  apply read_ultrasonic_measured in H; [|discriminate].
  destruct H as (_ & _ & rise & s1 & Hrise & Hrest).
  apply wait_rising_exit in Hrise.
  cbn [n_input n_time triggered clocked log] in Hrise.
  destruct Hrise as (_ & Ht1 & Hex1).
  destruct rise as [ps|].
  - destruct Hrest as (fall & Hfall & Hres).
    apply wait_falling_exit in Hfall. destruct Hfall as (_ & Ht2 & Hex2).
    destruct fall as [pe|].
    + exfalso.
      destruct (distance_of_pulse_cases ps pe) as [(E & _)|(E & _)];
        rewrite E in Hres; inversion Hres.
    + destruct Hex2 as [Hlt Hpast].
      rewrite held_reading in Hex1. subst ps.
      exists (n_time st + (n_time s1 - S (n_time st))).
      split; [lia|]. split; [lia | exact Hpast].
  - destruct Hrest as [_ ->]. destruct Hex1 as [Hlt Hpast].
    exists (n_time st). split; [lia|]. split; [lia | exact Hpast].
Qed.

Lemma read_error_only_after_deadline_witness :
  exists i,
    0 <= i /\ i < 3 /\ past_deadline silent_echo i 3 = true.
Proof.
  apply (read_error_only_after_deadline 5 ready silent_echo initial_state
           0.0%float (polled 3 (triggered initial_state))).
  reflexivity.
Defined.

(** X7. When [read_ultrasonic] returns status 0 (Ok), the distance is
    round((t_j - t_i) * 17150, 2) for two clock readings of this very
    read, the second taken strictly after the first and not more than
    0.1 s after it, and the distance lies in [2, 400]. *)
Theorem ok_distance_is_measured (fuel : nat) (self : SensorReader.t)
    (hw : hardware) (st : state) (d : float) (st' : state) :
  read_ultrasonic fuel self hw st = Some (Val (d, Ok), st') ->
  exists i j,
    n_time st <= i /\ i < j /\ j < n_time st'
    /\ d = round2 ((wall_clock hw j - wall_clock hw i) * 17150.0)%float
    /\ (2.0 <=? d)%float = true /\ (d <=? 400.0)%float = true
    /\ past_deadline hw i j = false.
Proof.
  intros H.
  apply read_ultrasonic_measured in H; [|discriminate].
  destruct H as (_ & _ & rise & s1 & Hrise & Hrest).
  apply wait_rising_exit in Hrise.
  cbn [n_input n_time triggered clocked log] in Hrise.
  destruct Hrise as (_ & Ht1 & Hex1).
  destruct rise as [ps|]; [|destruct Hrest as [Hres _]; inversion Hres].
  destruct Hrest as (fall & Hfall & Hres).
  apply wait_falling_exit in Hfall. destruct Hfall as (_ & Ht2 & Hex2).
  destruct fall as [pe|]; [|inversion Hres].
  rewrite held_reading in Hex1.
  destruct Hex2 as [[Hsame Hpe]|(Hlt & Hpe & Hnot)].
  - subst pe. rewrite distance_of_pulse_self in Hres. inversion Hres.
  - exists (n_time st + (n_time s1 - S (n_time st))), (n_time st' - 1).
    split; [lia|]. split; [lia|]. split; [lia|].
    rewrite <- Hex1, <- Hpe.
    destruct (distance_of_pulse_cases ps pe) as [(E & Hlo & Hhi)|(E & _)];
      rewrite E in Hres; inversion Hres; subst.
    repeat split; assumption.
Qed.

Lemma ok_distance_is_measured_witness :
  exists i j,
    0 <= i /\ i < j /\ j < 5
    /\ 254.0%float
       = round2 ((wall_clock bench j - wall_clock bench i) * 17150.0)%float
    /\ (2.0 <=? 254.0)%float = true /\ (254.0 <=? 400.0)%float = true
    /\ past_deadline bench i j = false.
Proof.
  apply (ok_distance_is_measured 10 ready bench initial_state 254.0%float
           (sampled ECHO_PIN
              (polled 2 (sampled ECHO_PIN (polled 2 (triggered initial_state)))))).
  reflexivity.
Defined.

(** X8. An echo pulse that is over before the falling-edge wait takes its
    first sample has length zero: [pulse_end] stays equal to
    [pulse_start], and the read reports 0.0 with status 3 (OutOfRange),
    not a timeout, whatever the clock reads. *)
Theorem zero_length_pulse_is_out_of_range (self : SensorReader.t)
    (hw : hardware) (st : state) (r fuel : nat) :
  ultrasonic_enabled self = true ->
  gpio_output hw true = Val tt ->
  gpio_output hw false = Val tt ->
  rising_edge_at hw (n_input st) (n_time st) r ->
  gpio_input hw (n_input st + S r) = Val false ->
  r < fuel ->
  read_ultrasonic fuel self hw st
  = Some (Val (0.0%float, OutOfRange),
          sampled ECHO_PIN (sampled ECHO_PIN (polled r (triggered st)))).
Proof.
  intros Hen Hhi Hlo Hrise Hlow Hfuel.
  rewrite (read_ultrasonic_both_edges self hw st r 0 fuel); auto.
  - rewrite Nat.add_0_r, distance_of_pulse_self. reflexivity.
  - split; [intros m Hm; lia | now rewrite Nat.add_0_r].
  - lia.
Qed.

Lemma zero_length_pulse_is_out_of_range_witness :
  read_ultrasonic 3 ready
    (with_gpio bench (fun _ => Val tt) (fun k => Val (Nat.eqb k 1)))
    initial_state
  = Some (Val (0.0%float, OutOfRange),
          sampled ECHO_PIN
            (sampled ECHO_PIN (polled 1 (triggered initial_state)))).
Proof.
  apply (zero_length_pulse_is_out_of_range ready
           (with_gpio bench (fun _ => Val tt) (fun k => Val (Nat.eqb k 1)))
           initial_state 1 3);
    [reflexivity | reflexivity | reflexivity | | reflexivity | lia].
  split; [|reflexivity].
  intros k Hk. destruct k as [|k]; [split; reflexivity | lia].
Defined.

(** ** What each read touches *)

Section Keeps.

Variable P : event -> Prop.

Lemma extends_refl (st : state) : extends P st st.
Proof. exists []. split; [reflexivity | constructor]. Qed.

Lemma extends_trans (s1 s2 s3 : state) :
  extends P s1 s2 -> extends P s2 s3 -> extends P s1 s3.
Proof.
  intros (l1 & E1 & F1) (l2 & E2 & F2). exists (l2 ++ l1). split.
  - rewrite E2, E1. apply app_assoc.
  - apply Forall_app. split; assumption.
Qed.

Lemma extends_step (ev : event) (st st' : state) :
  P ev -> trace st' = ev :: trace st -> extends P st st'.
Proof.
  intros Hev E. exists [ev]. split; [exact E | repeat constructor; exact Hev].
Qed.

Lemma keeps_ret {A} (a : A) : keeps P (ret a).
Proof. intros st out st' H. inversion H. apply extends_refl. Qed.

Lemma keeps_access {A} (ev : event) (r : result A) :
  P ev -> keeps P (access ev r).
Proof.
  intros Hev st out st' H. inversion H.
  apply extends_step with (ev := ev); auto.
Qed.

Lemma keeps_bind {A B} (m : M A) (f : A -> M B) :
  keeps P m -> (forall a, keeps P (f a)) -> keeps P (bind m f).
Proof.
  intros Hm Hf st out st'. unfold bind.
  destruct (m st) as [[[a|e] s1]|] eqn:E; [| |discriminate].
  - intros H. eapply extends_trans; [eapply Hm; eauto | eapply Hf; eauto].
  - intros H; inversion H; subst. eapply Hm; eauto.
Qed.

Lemma keeps_try_except {A} (m : M A) (h : exn -> M A) :
  keeps P m -> (forall e, keeps P (h e)) -> keeps P (try_except m h).
Proof.
  intros Hm Hh st out st'. unfold try_except.
  destruct (m st) as [[[a|e] s1]|] eqn:E; [| |discriminate].
  - intros H; inversion H; subst. eapply Hm; eauto.
  - intros H. eapply extends_trans; [eapply Hm; eauto | eapply Hh; eauto].
Qed.

Lemma keeps_GPIO_input (hw : hardware) (pin : Z) :
  P (GpioInput pin) -> keeps P (GPIO_input hw pin).
Proof.
  intros Hev st out st' H. inversion H.
  apply extends_step with (ev := GpioInput pin); auto.
Qed.

Lemma keeps_time_time (hw : hardware) :
  P TimeTime -> keeps P (time_time hw).
Proof.
  intros Hev st out st' H. inversion H.
  apply extends_step with (ev := TimeTime); auto.
Qed.

End Keeps.

Lemma keeps_wait_rising (fuel : nat) (hw : hardware) :
  forall t0 ps, keeps ranging_access (wait_rising fuel hw t0 ps).
Proof.
  induction fuel as [|fuel IH]; intros t0 ps;
    [intros st out st' H; discriminate|].
  cbn [wait_rising].
  apply keeps_bind; [apply keeps_GPIO_input; reflexivity|]. intros level.
  destruct level; cbn [negb]; [apply keeps_ret|].
  apply keeps_bind; [apply keeps_time_time; exact I|]. intros now_.
  destruct (0.1 <? now_ - t0)%float; [apply keeps_ret | apply IH].
Qed.

Lemma keeps_wait_falling (fuel : nat) (hw : hardware) :
  forall ps pe, keeps ranging_access (wait_falling fuel hw ps pe).
Proof.
  induction fuel as [|fuel IH]; intros ps pe;
    [intros st out st' H; discriminate|].
  cbn [wait_falling].
  apply keeps_bind; [apply keeps_GPIO_input; reflexivity|]. intros level.
  destruct level; [|apply keeps_ret].
  apply keeps_bind; [apply keeps_time_time; exact I|]. intros now_.
  destruct (0.1 <? now_ - ps)%float; [apply keeps_ret | apply IH].
Qed.

(** X9. Each read touches its own device only.  [read_dht11] reads the two
    DHT11 properties and [read_ina219] the three INA219 properties (and
    both may log an error); neither samples the echo line nor reads the
    clock.  [read_ultrasonic] writes pin 23 only, samples pin 24 only,
    sleeps, reads the clock and may log, and touches neither the DHT11
    nor the INA219. *)
Theorem reads_touch_their_own_device (self : SensorReader.t) (hw : hardware) :
  (forall st out st',
     read_dht11 self hw st = Some (out, st') ->
     extends dht_access st st' /\ same_counters st st')
  /\ (forall st out st',
        read_ina219 self hw st = Some (out, st') ->
        extends ina_access st st' /\ same_counters st st')
  /\ (forall fuel, keeps ranging_access (read_ultrasonic fuel self hw)).
Proof.
  split; [|split].
  - intros st out st' H. split.
    + revert st out st' H. fold (keeps dht_access (read_dht11 self hw)).
      unfold read_dht11. destruct (dht_sensor self); [|apply keeps_ret].
      apply keeps_try_except.
      * unfold read_dht11_try.
        apply keeps_bind; [apply keeps_access; exact I|]. intros t.
        apply keeps_bind; [apply keeps_access; exact I|]. intros h.
        destruct t, h; apply keeps_ret.
      * intros e. unfold read_dht11_except.
        destruct (isinstance_RuntimeError e); [apply keeps_ret|].
        apply keeps_bind; [apply keeps_access; exact I|]. intros _.
        apply keeps_ret.
    + destruct (read_dht11_frame self hw st) as (r & s & E & Hc).
      rewrite E in H. inversion H; subst. exact Hc.
  - intros st out st' H. split.
    + revert st out st' H. fold (keeps ina_access (read_ina219 self hw)).
      unfold read_ina219. destruct (ina219 self); [|apply keeps_ret].
      apply keeps_try_except.
      * unfold read_ina219_try.
        apply keeps_bind; [apply keeps_access; exact I|]. intros v.
        apply keeps_bind; [apply keeps_access; exact I|]. intros c.
        apply keeps_bind; [apply keeps_access; exact I|]. intros p.
        apply keeps_ret.
      * intros e. unfold read_ina219_except.
        apply keeps_bind; [apply keeps_access; exact I|]. intros _.
        apply keeps_ret.
    + destruct (read_ina219_frame self hw st) as (r & s & E & Hc).
      rewrite E in H. inversion H; subst. exact Hc.
  - intros fuel. unfold read_ultrasonic.
    destruct (negb (ultrasonic_enabled self)); [apply keeps_ret|].
    apply keeps_try_except.
    + unfold read_ultrasonic_try, GPIO_output, time_sleep.
      apply keeps_bind; [apply keeps_access; reflexivity|]. intros _.
      apply keeps_bind; [apply keeps_access; exact I|]. intros _.
      apply keeps_bind; [apply keeps_access; reflexivity|]. intros _.
      apply keeps_bind; [apply keeps_time_time; exact I|]. intros t0.
      apply keeps_bind; [apply keeps_wait_rising|]. intros rise.
      destruct rise as [ps|]; [|apply keeps_ret].
      apply keeps_bind; [apply keeps_wait_falling|]. intros fall.
      destruct fall; apply keeps_ret.
    + intros e. unfold read_ultrasonic_except.
      apply keeps_bind; [apply keeps_access; exact I|]. intros _.
      apply keeps_ret.
Qed.

Lemma reads_touch_their_own_device_witness :
  (extends dht_access initial_state
     (log DhtHumidity (log DhtTemperature initial_state))
   /\ same_counters initial_state
        (log DhtHumidity (log DhtTemperature initial_state)))
  /\ (extends ina_access initial_state
        (log InaPower (log InaCurrent (log InaBusVoltage initial_state)))
      /\ same_counters initial_state
           (log InaPower (log InaCurrent (log InaBusVoltage initial_state))))
  /\ extends ranging_access initial_state
       (polled 3 (triggered initial_state)).
Proof.
  destruct (reads_touch_their_own_device ready silent_echo)
    as (Hd & Hi & Hu).
  split; [|split].
  - apply (Hd initial_state (Val (100.0, 40.0, 0%Z)%float)). reflexivity.
  - apply (Hi initial_state (Val (5.1, 0.12, 0.612, 0%Z)%float)).
    reflexivity.
  - apply (Hu 5 initial_state (Val (0.0%float, 1%Z))). reflexivity.
Defined.

(** X10. The trigger pulse of [read_ultrasonic] on an initialised port.
    When the write that drives pin 23 high raises, or the write that
    drives it low again does, the read returns (0.0, 2) at once, for any
    fuel: the echo line is not sampled and the clock is not read (and
    after a failed low write the pin is not written again).  When the
    read returns any other status, the whole pulse (high, 10 us sleep,
    low) and the reading of [timeout_start] precede every sample. *)
Theorem trigger_pulse (self : SensorReader.t) (hw : hardware) (st : state)
    (fuel : nat) :
  ultrasonic_enabled self = true ->
  (forall e,
     gpio_output hw true = Raise e ->
     read_ultrasonic fuel self hw st
     = Some (Val (0.0%float, SensorUnavailable),
             log (LoggerError "HC-SR04 error" e)
               (log (GpioOutput TRIG_PIN true) st)))
  /\ (forall e,
        gpio_output hw true = Val tt -> gpio_output hw false = Raise e ->
        read_ultrasonic fuel self hw st
        = Some (Val (0.0%float, SensorUnavailable),
                log (LoggerError "HC-SR04 error" e)
                  (log (GpioOutput TRIG_PIN false)
                     (log (TimeSleep 0.00001%float)
                        (log (GpioOutput TRIG_PIN true) st)))))
  /\ (forall d s st',
        read_ultrasonic fuel self hw st = Some (Val (d, s), st') ->
        s <> SensorUnavailable ->
        extends ranging_access (triggered st) st'
        /\ n_input st < n_input st').
Proof.
  intros Hen. split; [|split].
  - intros e Hhi. unfold read_ultrasonic. rewrite Hen. cbn [negb].
    unfold try_except, read_ultrasonic_try, GPIO_output, access.
    unfold bind at 1. rewrite Hhi. reflexivity.
  - intros e Hhi Hlo. unfold read_ultrasonic. rewrite Hen. cbn [negb].
    unfold try_except, read_ultrasonic_try, GPIO_output, time_sleep, access.
    unfold bind at 1. rewrite Hhi.
    unfold bind at 1. unfold bind at 1. rewrite Hlo. reflexivity.
  - intros d s st' H Hs.
    apply read_ultrasonic_measured in H; [|exact Hs].
    destruct H as (_ & _ & rise & s1 & Hrise & Hrest).
    pose proof (keeps_wait_rising fuel hw _ _ _ _ _ Hrise) as K1.
    apply wait_rising_exit in Hrise.
    cbn [n_input triggered clocked log] in Hrise.
    destruct Hrise as (Hi1 & _).
    destruct rise as [ps|].
    + destruct Hrest as (fall & Hfall & _).
      pose proof (keeps_wait_falling fuel hw _ _ _ _ _ Hfall) as K2.
      apply wait_falling_exit in Hfall. destruct Hfall as (Hi2 & _).
      split; [eapply extends_trans; eauto | lia].
    + destruct Hrest as [_ ->]. split; [exact K1 | lia].
Qed.

Lemma trigger_pulse_witness :
  read_ultrasonic 0 ready
    (with_gpio bench (fun level => if level then Val tt else Raise OSError)
       (gpio_input bench))
    initial_state
  = Some (Val (0.0%float, SensorUnavailable),
          log (LoggerError "HC-SR04 error" OSError)
            (log (GpioOutput TRIG_PIN false)
               (log (TimeSleep 0.00001%float)
                  (log (GpioOutput TRIG_PIN true) initial_state))))
  /\ read_ultrasonic 0 ready
       (with_gpio bench (fun _ => Raise OSError) (gpio_input bench))
       initial_state
     = Some (Val (0.0%float, SensorUnavailable),
             log (LoggerError "HC-SR04 error" OSError)
               (log (GpioOutput TRIG_PIN true) initial_state))
  /\ (extends ranging_access (triggered initial_state)
        (polled 3 (triggered initial_state))
      /\ n_input initial_state < n_input (polled 3 (triggered initial_state))).
Proof.
  split; [|split].
  - apply (proj1 (proj2 (trigger_pulse ready
             (with_gpio bench
                (fun level => if level then Val tt else Raise OSError)
                (gpio_input bench))
             initial_state 0 eq_refl)) OSError); reflexivity.
  - apply (proj1 (trigger_pulse ready
             (with_gpio bench (fun _ => Raise OSError) (gpio_input bench))
             initial_state 0 eq_refl) OSError); reflexivity.
  - apply (proj2 (proj2 (trigger_pulse ready silent_echo initial_state 5
                           eq_refl)) 0.0%float ReadError);
      [reflexivity | discriminate].
Defined.

(** ** The address space and the writes of a cycle *)

Lemma dict_get_None (key : string) (d : node_dict) :
  dict_get key d = None <-> ~ In key (keys d).
Proof.
  induction d as [|[k node] d IH]; cbn.
  - tauto.
  - destruct (String.eqb_spec key k) as [->|Hne].
    + split; [discriminate | intros H; exfalso; apply H; auto].
    + rewrite IH. split; [intros H [E|Hin]; [congruence | tauto] | tauto].
Qed.

Lemma write_value_inl (key : string) (v : variant) (d : node_dict)
    (missing : string) :
  write_value key v d = inl missing ->
  missing = key /\ dict_get key d = None.
Proof.
  induction d as [|[k node] d IH]; cbn.
  - intros H; inversion H; auto.
  - destruct (String.eqb key k); [discriminate|].
    destruct (write_value key v d); [|discriminate].
    intros H; inversion H; subst. auto.
Qed.

Lemma write_value_inr (key : string) (v : variant) (d d' : node_dict) :
  write_value key v d = inr d' ->
  keys d' = keys d
  /\ (exists node, dict_get key d = Some node
                   /\ dict_get key d' = Some (with_value node v))
  /\ (forall k, k <> key -> dict_get k d' = dict_get k d).
Proof.
  revert d'. induction d as [|[k node] d IH]; cbn; intros d'.
  - discriminate.
  - destruct (String.eqb_spec key k) as [->|Hne].
    + intros H; inversion H; subst; cbn. rewrite String.eqb_refl.
      split; [reflexivity|]. split; [eauto|].
      intros k' Hk'. destruct (String.eqb_spec k' k); [congruence|reflexivity].
    + destruct (write_value key v d) as [m|r]; [discriminate|].
      intros H; inversion H; subst; cbn.
      destruct (IH r eq_refl) as (Hk & (n & Hg & Hg') & Hother).
      split; [unfold keys in *; cbn; now rewrite Hk|].
      destruct (String.eqb_spec key k) as [|_]; [congruence|].
      split; [eauto|].
      intros k' Hk'. destruct (String.eqb k' k); [reflexivity | auto].
Qed.

Lemma write_value_present (key : string) (v : variant) (d : node_dict) :
  dict_get key d <> None -> exists d', write_value key v d = inr d'.
Proof.
  intros H. destruct (write_value key v d) as [m|d'] eqn:E; [|eauto].
  apply write_value_inl in E. tauto.
Qed.

Lemma written_None (key : string) (ws : list (string * variant)) :
  written key ws = None <-> ~ In key (map fst ws).
Proof.
  induction ws as [|[k v] ws IH]; cbn.
  - tauto.
  - destruct (String.eqb_spec key k) as [->|Hne].
    + split; [discriminate | intros H; exfalso; apply H; auto].
    + rewrite IH. split; [intros H [E|Hin]; [congruence | tauto] | tauto].
Qed.

Lemma write_all_inr (ws : list (string * variant)) :
  forall d d',
    NoDup (map fst ws) ->
    write_all ws d = inr d' ->
    keys d' = keys d
    /\ forall k,
         dict_get k d'
         = match written k ws with
           | Some x => option_map (fun node => with_value node x) (dict_get k d)
           | None => dict_get k d
           end.
Proof.
  induction ws as [|[k0 x0] ws IH]; cbn; intros d d' Hnd H.
  - inversion H; subst. auto.
  - inversion Hnd as [|? ? Hnotin Hnd']; subst.
    destruct (write_value k0 x0 d) as [m|d1] eqn:E; [discriminate|].
    destruct (write_value_inr _ _ _ _ E) as (Hk1 & (n & Hg & Hg1) & Hother).
    destruct (IH d1 d' Hnd' H) as (Hk & Hget).
    split; [congruence|].
    intros k. rewrite Hget.
    destruct (String.eqb_spec k k0) as [->|Hne].
    + apply written_None in Hnotin. rewrite Hnotin, Hg1, Hg. reflexivity.
    + now rewrite (Hother k Hne).
Qed.

Lemma write_all_inl (ws : list (string * variant)) :
  forall d missing,
    write_all ws d = inl missing ->
    In missing (map fst ws) /\ dict_get missing d = None.
Proof.
  induction ws as [|[k0 x0] ws IH]; cbn; intros d missing H; [discriminate|].
  destruct (write_value k0 x0 d) as [m|d1] eqn:E.
  - inversion H; subst. apply write_value_inl in E. destruct E as [-> E].
    auto.
  - destruct (IH d1 missing H) as (Hin & Hnone). split; [auto|].
    destruct (write_value_inr _ _ _ _ E) as (Hk & _ & _).
    apply dict_get_None. rewrite <- Hk. now apply dict_get_None.
Qed.

Lemma write_all_present (ws : list (string * variant)) :
  forall d,
    (forall k, In k (map fst ws) -> dict_get k d <> None) ->
    exists d', write_all ws d = inr d'.
Proof.
  intros d H. destruct (write_all ws d) as [m|d'] eqn:E; [|eauto].
  apply write_all_inl in E. destruct E as (Hin & Hnone).
  exfalso. exact (H m Hin Hnone).
Qed.

Lemma writes_keys (v : nodes) :
  map fst (writes v)
  = ["temp"; "temp_f"; "humidity"; "dht_status"; "voltage"; "current";
     "power"; "ina_status"; "distance"; "distance_in"; "ultrasonic_status";
     "timestamp"; "uptime"]%string.
Proof. reflexivity. Qed.

Lemma writes_NoDup (v : nodes) : NoDup (map fst (writes v)).
Proof.
  rewrite writes_keys.
  repeat (constructor;
          [cbn; intros H;
           repeat (destruct H as [H|H]; [discriminate H|]); exact H|]).
  constructor.
Qed.

(** X11. The writes of a cycle and missing keys.  [write_values] goes
    through when each of the thirteen keys is in the dictionary.  When it
    fails, the [KeyError] names one of the thirteen keys and that key is
    not in the dictionary; in particular, on the empty dictionary that
    [OPCUAServer.__init__] leaves, before [init_server], the first write
    fails with [KeyError('temp')]. *)
Theorem write_values_key_errors (v : nodes) (d : node_dict) :
  ((forall k, In k (map fst (writes v)) -> dict_get k d <> None) ->
   exists d', write_values v d = inr d')
  /\ (forall missing,
        write_values v d = inl missing ->
        In missing (map fst (writes v)) /\ dict_get missing d = None)
  /\ write_values v empty_nodes = inl "temp"%string.
Proof.
  split; [apply write_all_present|]. split; [apply write_all_inl|].
  reflexivity.
Qed.

Lemma write_values_key_errors_witness :
  (exists d', write_values (unavailable_values 12.0 3.0 "")
                (init_server empty_nodes) = inr d')
  /\ (In "temp_f"%string
        (map fst (writes (unavailable_values 12.0 3.0 "")))
      /\ dict_get "temp_f"
           [("temp", add_variable "DHT11_Sensor" "Temperature_C"
                       (Double 0.0))]%string
         = None).
Proof.
  split.
  - apply (proj1 (write_values_key_errors (unavailable_values 12.0 3.0 "")
                    (init_server empty_nodes))).
    intros k Hk. cbn in Hk.
    repeat (destruct Hk as [<-|Hk]; [discriminate|]). destruct Hk.
  - apply (proj1 (proj2 (write_values_key_errors
                           (unavailable_values 12.0 3.0 "")
                           [("temp", add_variable "DHT11_Sensor"
                                       "Temperature_C" (Double 0.0))]%string))).
    reflexivity.
Defined.

(** X12. What the writes of a cycle change.  When [write_values] goes
    through, the dictionary keeps its keys in their order; a node under
    one of the thirteen keys keeps its object, browse name and writable
    flag and holds the value just written; every other node is as it
    was. *)
Theorem write_values_effect (v : nodes) (d d' : node_dict) :
  write_values v d = inr d' ->
  keys d' = keys d
  /\ forall k,
       dict_get k d'
       = match written k (writes v) with
         | Some x => option_map (fun node => with_value node x) (dict_get k d)
         | None => dict_get k d
         end.
Proof. apply write_all_inr, writes_NoDup. Qed.

Lemma write_values_effect_witness :
  exists d',
    write_values (unavailable_values 12.0 3.0 "2026-03-07 09:05:00")
      (init_server empty_nodes) = inr d'
    /\ keys d' = keys (init_server empty_nodes)
    /\ dict_get "temp_f"%string d'
       = Some {| parent := "DHT11_Sensor"; browse_name := "Temperature_F";
                 value := Double 32.0; writable := true |}.
Proof.
  eexists. split; [lazy; reflexivity|].
  destruct (write_values_effect
              (unavailable_values 12.0 3.0 "2026-03-07 09:05:00")
              (init_server empty_nodes) _ ltac:(lazy; reflexivity))
    as (Hk & Hget).
  split; [exact Hk|]. rewrite (Hget "temp_f"%string). reflexivity.
Defined.

(** X13. [init_server] and a cycle fit together.  Into the dictionary
    that [init_server] builds from the empty one, the writes of any cycle
    go through without a [KeyError]; afterwards the dictionary holds, key
    by key and in the order of creation, exactly the thirteen values
    written; every node still has the object, the browse name and the
    variant type it was created with (Double for the measurements and the
    uptime, Int64 for the three statuses, String for the timestamp), and
    every node is writable. *)
Theorem init_server_then_write_values (v : nodes) :
  exists d',
    write_values v (init_server empty_nodes) = inr d'
    /\ values d' = writes v
    /\ shape d' = shape (init_server empty_nodes)
    /\ Forall (fun kv => writable (snd kv) = true) d'
    /\ NoDup (keys d').
Proof.
  eexists. split; [reflexivity|]. split; [reflexivity|].
  split; [reflexivity|]. split.
  - repeat constructor.
  - change (NoDup (map fst (writes v))). apply writes_NoDup.
Qed.

(** Two dictionaries with the same keys, each once, and the same node
    under every key are the same dictionary. *)
Lemma dict_ext (d1 : node_dict) :
  forall d2,
    keys d1 = keys d2 -> NoDup (keys d1) ->
    (forall k, dict_get k d1 = dict_get k d2) ->
    d1 = d2.
Proof.
  induction d1 as [|[k n1] d1 IH]; intros [|[k' n2] d2] Hk Hnd Hget;
    try discriminate; [reflexivity|].
  cbn in Hk. inversion Hk as [[Hkk Hrest]]. subst k'.
  inversion Hnd as [|? ? Hnotin Hnd']; subst.
  pose proof (Hget k) as Hhead. cbn in Hhead. rewrite String.eqb_refl in Hhead.
  inversion Hhead; subst. f_equal.
  apply IH; auto.
  intros k'. destruct (String.eqb_spec k' k) as [->|Hne].
  - transitivity (@None variable); [|symmetry]; apply dict_get_None; auto.
    unfold keys in *. now rewrite <- Hrest.
  - specialize (Hget k'). cbn in Hget.
    destruct (String.eqb_spec k' k); [congruence | exact Hget].
Qed.

Lemma written_same_keys (ws1 : list (string * variant)) :
  forall ws2 k,
    map fst ws1 = map fst ws2 ->
    (written k ws1 = None <-> written k ws2 = None).
Proof.
  intros ws2 k H. rewrite !written_None, H. tauto.
Qed.

Lemma write_all_needs_keys (ws : list (string * variant)) :
  forall d d',
    write_all ws d = inr d' ->
    forall k, In k (map fst ws) -> dict_get k d <> None.
Proof.
  induction ws as [|[k0 x0] ws IH]; cbn; intros d d' H k Hin; [tauto|].
  destruct (write_value k0 x0 d) as [m|d1] eqn:E; [discriminate|].
  destruct (write_value_inr _ _ _ _ E) as (Hk & (n & Hg & _) & _).
  destruct Hin as [<-|Hin]; [congruence|].
  intros Hnone. apply (IH d1 d' H k Hin).
  apply dict_get_None. rewrite Hk. now apply dict_get_None.
Qed.

(** X14. A cycle overwrites the one before.  On a dictionary whose keys
    are distinct, the writes of a cycle after the writes of an earlier
    cycle leave the dictionary that they would have left alone: nothing
    of the earlier values survives. *)
Theorem later_cycle_overwrites (v1 v2 : nodes) (d d1 d2 : node_dict) :
  NoDup (keys d) ->
  write_values v1 d = inr d1 ->
  write_values v2 d1 = inr d2 ->
  write_values v2 d = inr d2.
Proof.
  unfold write_values. intros Hnd H1 H2.
  destruct (write_all_inr _ _ _ (writes_NoDup v1) H1) as (Hk1 & Hg1).
  destruct (write_all_inr _ _ _ (writes_NoDup v2) H2) as (Hk2 & Hg2).
  destruct (write_all_present (writes v2) d) as (d2' & H2').
  { intros k Hk. apply (write_all_needs_keys _ _ _ H1). exact Hk. }
  rewrite H2'. f_equal.
  destruct (write_all_inr _ _ _ (writes_NoDup v2) H2') as (Hk2' & Hg2').
  apply dict_ext.
  - congruence.
  - now rewrite Hk2'.
  - intros k. rewrite Hg2', Hg2, Hg1.
    pose proof (written_same_keys (writes v1) (writes v2) k eq_refl) as Hsame.
    destruct (written k (writes v1)) as [y|], (written k (writes v2)) as [x|];
      try reflexivity.
    + destruct (dict_get k d); reflexivity.
    + destruct Hsame as [_ Hs]. specialize (Hs eq_refl). discriminate.
Qed.

Lemma later_cycle_overwrites_witness :
  exists d1 d2,
    write_values (unavailable_values 12.0 3.0 "2026-03-07 09:05:00")
      (init_server empty_nodes) = inr d1
    /\ write_values (unavailable_values 14.0 3.0 "2026-03-07 09:05:02") d1
       = inr d2
    /\ write_values (unavailable_values 14.0 3.0 "2026-03-07 09:05:02")
         (init_server empty_nodes) = inr d2.
Proof.
  do 2 eexists. split; [lazy; reflexivity|]. split; [lazy; reflexivity|].
  eapply (later_cycle_overwrites
            (unavailable_values 12.0 3.0 "2026-03-07 09:05:00")
            (unavailable_values 14.0 3.0 "2026-03-07 09:05:02")
            (init_server empty_nodes));
    [| lazy; reflexivity | lazy; reflexivity].
  change (NoDup (map fst (writes (unavailable_values 12.0 3.0 "")))).
  apply writes_NoDup.
Defined.

(** ** The main update loop *)

Lemma update_values_dead (fuel : nat) (hw : hardware) (start_time : float)
    (st : state) :
  update_values fuel dead hw start_time st
  = Some (Val (unavailable_values (wall_clock hw (n_time st)) start_time
                 (strftime (datetime_now hw))),
          log DatetimeNow (clocked st)).
Proof. reflexivity. Qed.

Lemma update_loop_value (n : nat) :
  forall fuel self world start_time i st out st',
    update_loop n fuel self world start_time i st = Some (out, st') ->
    exists l, out = Val l /\ List.length l = n.
Proof.
  induction n as [|n IH]; intros fuel self world start_time i st out st'.
  - cbn. unfold ret. intros H; inversion H. exists []. auto.
  - cbn [update_loop]. unfold bind at 1.
    destruct (update_values fuel self (world i) start_time st)
      as [[o s1]|] eqn:Hu; [|discriminate].
    destruct (update_values_value _ _ _ _ _ _ _ Hu) as (v & ->).
    unfold asyncio_sleep, access. unfold bind at 1. unfold bind at 1.
    destruct (update_loop n fuel self world start_time (S i) (log _ s1))
      as [[o2 s2]|] eqn:Hl; [|discriminate].
    destruct (IH _ _ _ _ _ _ _ _ Hl) as (l & -> & Hlen).
    unfold ret. intros H; inversion H. exists (v :: l). cbn. auto.
Qed.

Lemma update_loop_dead (n : nat) :
  forall fuel world start_time i st,
    exists st',
      update_loop n fuel dead world start_time i st
      = Some (Val (unavailable_run world start_time i (n_time st) n), st')
      /\ n_time st' = n_time st + n /\ n_input st' = n_input st.
Proof.
  induction n as [|n IH]; intros fuel world start_time i st.
  - exists st. cbn. repeat split; lia.
  - cbn [update_loop unavailable_run]. unfold bind at 1.
    rewrite update_values_dead.
    unfold asyncio_sleep, access. unfold bind at 1. unfold bind at 1.
    destruct (IH fuel world start_time (S i)
                (log (TimeSleep UPDATE_INTERVAL)
                   (log DatetimeNow (clocked st))))
      as (st' & Hrun & Ht & Hi).
    cbn [n_time n_input log clocked] in Hrun, Ht, Hi.
    exists st'. rewrite Hrun. unfold ret. repeat split; [lia | exact Hi].
Qed.

(** X15. Sensor failures do not end the main loop.  Whatever the devices
    do, [n] turns of the loop never raise: when they finish they have
    published [n] records.  With no port available at all the turns
    always finish, for any fuel, each turn taking exactly one clock
    reading and publishing status 2 three times, zero readings, 32.0 F,
    0.0 in, and the uptime counted from the one [start_time] that was
    read before the first turn. *)
Theorem update_loop_survives_failures (n fuel : nat)
    (world : nat -> hardware) (st : state) :
  (forall self start_time i out st',
     update_loop n fuel self world start_time i st = Some (out, st') ->
     exists l, out = Val l /\ List.length l = n)
  /\ exists st',
       run_loop n fuel dead world st
       = Some (Val (unavailable_run world (wall_clock (world 0) (n_time st))
                      0 (S (n_time st)) n), st')
       /\ n_time st' = S (n_time st + n) /\ n_input st' = n_input st.
Proof.
  split; [intros self start_time i out st'; apply update_loop_value|].
  unfold run_loop, time_time. unfold bind.
  destruct (update_loop_dead n fuel world (wall_clock (world 0) (n_time st))
              0 (clocked st)) as (st' & Hrun & Ht & Hi).
  cbn [n_time n_input clocked] in Hrun, Ht, Hi.
  exists st'. rewrite Hrun. repeat split; [lia | exact Hi].
Qed.

Lemma update_loop_survives_failures_witness :
  exists l, Val (unavailable_run (fun _ => dead_bench) 3.0%float 0 0 2) = Val l
            /\ List.length l = 2.
Proof.
  apply (proj1 (update_loop_survives_failures 2 0 (fun _ => dead_bench)
                  initial_state) dead 3.0%float 0 _
           (log (TimeSleep UPDATE_INTERVAL)
              (log DatetimeNow
                 (clocked
                    (log (TimeSleep UPDATE_INTERVAL)
                       (log DatetimeNow (clocked initial_state))))))).
  reflexivity.
Defined.

(** ** test_sensor.py against the server *)

Lemma related_bind {A B C} (R : B -> C -> Prop) (m : M A)
    (f1 : A -> M B) (f2 : A -> M C) (st : state) :
  (forall a s, related R (f1 a s) (f2 a s)) ->
  related R (bind m f1 st) (bind m f2 st).
Proof.
  intros H. unfold bind. destruct (m st) as [[[a|e] s]|]; cbn; auto.
Qed.

Lemma related_ret {B C} (R : B -> C -> Prop) (b : B) (c : C) (s : state) :
  R b c -> related R (ret b s) (ret c s).
Proof. intros H. cbn. auto. Qed.

(** The [try] blocks of the script and of the server differ in what they
    answer only. *)
Lemma test_body_agrees (fuel : nat) (hw : hardware) (st : state) :
  related (fun rep r => r = status_of_report rep)
    (bind (GPIO_output hw TRIG_PIN true) (fun _ =>
     bind (time_sleep 0.00001%float) (fun _ =>
     bind (GPIO_output hw TRIG_PIN false) (fun _ =>
     bind (time_time hw) (fun timeout_start =>
     bind (wait_rising fuel hw timeout_start timeout_start) (fun rising =>
       match rising with
       | Timeout => ret (TimeoutReport "No echo received (start)")
       | Edge pulse_start =>
           bind (wait_falling fuel hw pulse_start pulse_start) (fun falling =>
             match falling with
             | Timeout => ret (TimeoutReport "No echo received (end)")
             | Edge pulse_end =>
                 let distance :=
                   round2 ((pulse_end - pulse_start) * 17150.0)%float in
                 if ((2.0 <=? distance) && (distance <=? 400.0))%float
                 then ret (InRange distance)
                 else ret (OutOfRangeReport distance)
             end)
       end))))) st)
    (read_ultrasonic_try fuel hw st).
Proof.
  unfold read_ultrasonic_try.
  apply related_bind; intros _ s1. apply related_bind; intros _ s2.
  apply related_bind; intros _ s3. apply related_bind; intros t0 s4.
  apply related_bind; intros rising s5.
  destruct rising as [ps|]; [|now apply related_ret].
  apply related_bind; intros falling s6.
  destruct falling as [pe|]; [|now apply related_ret].
  unfold distance_of_pulse. cbv zeta.
  destruct ((2.0 <=? _)%float && _); now apply related_ret.
Qed.

(** X16. One turn of the HC-SR04 test of [test_sensor.py] and
    [read_ultrasonic] on an initialised port measure alike.  On the same
    hardware, from the same state and with the same fuel, either neither
    has finished, or both have, after the same numbers of samples and
    clock readings, and the server's answer is the script's report read
    as a status: the same distance with status 0 for a reading in range,
    (0.0, 3) for "OUT OF RANGE", (0.0, 1) for a timeout and (0.0, 2) for
    an error. *)
Theorem test_reading_agrees_with_server (fuel : nat) (self : SensorReader.t)
    (hw : hardware) (st : state) :
  ultrasonic_enabled self = true ->
  match hcsr04_reading fuel hw st, read_ultrasonic fuel self hw st with
  | None, None => True
  | Some (Val rep, s1), Some (Val r, s2) =>
      r = status_of_report rep /\ same_counters s1 s2
  | _, _ => False
  end.
Proof.
  intros Hen. unfold read_ultrasonic, hcsr04_reading. rewrite Hen.
  cbn [negb]. unfold try_except.
  pose proof (test_body_agrees fuel hw st) as H. cbv zeta in H.
  unfold related in H.
  match type of H with
  | match ?a with _ => _ end =>
      destruct a as [[[rep|e1] s1]|]
  end;
    destruct (read_ultrasonic_try fuel hw st) as [[[r|e2] s2]|];
    try contradiction; auto.
  - destruct H as [-> ->]. split; [reflexivity | apply same_counters_refl].
  - destruct H as [-> ->]. cbn. split; [reflexivity | split; reflexivity].
Qed.

Lemma test_reading_agrees_with_server_witness :
  (254.0%float, Ok) = status_of_report (InRange 254.0%float)
  /\ same_counters
       (sampled ECHO_PIN
          (polled 2 (sampled ECHO_PIN (polled 2 (triggered initial_state)))))
       (sampled ECHO_PIN
          (polled 2 (sampled ECHO_PIN (polled 2 (triggered initial_state))))).
Proof.
  exact (test_reading_agrees_with_server 10 ready bench initial_state eq_refl).
Defined.

Lemma hcsr04_reading_value (fuel : nat) (hw : hardware) (st : state)
    (out : result report) (st' : state) :
  hcsr04_reading fuel hw st = Some (out, st') -> exists rep, out = Val rep.
Proof.
  unfold hcsr04_reading. apply try_except_value.
  intros e s. unfold ret. eauto.
Qed.

Lemma hcsr04_reading_in_range (fuel : nat) (hw : hardware) (st : state)
    (d : float) (st' : state) :
  hcsr04_reading fuel hw st = Some (Val (InRange d), st') -> in_range d.
Proof.
  unfold hcsr04_reading, try_except.
  match goal with
  | |- match ?body st with _ => _ end = _ -> _ =>
      destruct (body st) as [[[rep|e] s1]|] eqn:Hb
  end; [| unfold ret; intros H; inversion H | discriminate].
  intros H; inversion H; subst. clear H.
  do 4 (apply bind_value in Hb; destruct Hb as (? & ? & _ & Hb)).
  apply bind_value in Hb; destruct Hb as (rise & ? & _ & Hb).
  destruct rise as [ps|]; [|unfold ret in Hb; inversion Hb].
  apply bind_value in Hb; destruct Hb as (fall & ? & _ & Hb).
  destruct fall as [pe|]; [|unfold ret in Hb; inversion Hb].
  cbv zeta in Hb.
  destruct (2.0 <=? round2 ((pe - ps) * 17150.0))%float eqn:Hlo;
    destruct (round2 ((pe - ps) * 17150.0) <=? 400.0)%float eqn:Hhi;
    cbn [andb] in Hb; unfold ret in Hb; inversion Hb; subst.
  split; assumption.
Qed.

Lemma hcsr04_turns_counts (turns : nat) :
  forall fuel world i c l st out st',
    hcsr04_turns turns fuel world i c l st = Some (out, st') ->
    c = List.length l -> Forall in_range l ->
    exists c' l',
      out = Val (c', l') /\ c' = List.length l' /\ c' <= c + turns
      /\ Forall in_range l'.
Proof.
  induction turns as [|turns IH]; intros fuel world i c l st out st' H Hc Hl.
  - cbn in H. unfold ret in H. inversion H; subst.
    exists (List.length l), l. repeat split; auto; lia.
  - cbn [hcsr04_turns] in H. unfold bind at 1 in H.
    destruct (hcsr04_reading fuel (world i) st) as [[o s1]|] eqn:Hr;
      [|discriminate].
    destruct (hcsr04_reading_value _ _ _ _ _ Hr) as (rep & ->).
    assert (Hstep :
      exists c1 l1,
        match rep with
        | InRange distance => (S c, l ++ [distance])
        | _ => (c, l)
        end = (c1, l1)
        /\ c1 = List.length l1 /\ c1 <= S c /\ Forall in_range l1).
    { destruct rep as [d| | |].
      - exists (S c), (l ++ [d]). split; [reflexivity|].
        rewrite length_app. cbn. split; [lia|]. split; [lia|].
        apply Forall_app. split; [exact Hl|]. constructor; [|constructor].
        eapply hcsr04_reading_in_range; eauto.
      - exists c, l. auto.
      - exists c, l. auto.
      - exists c, l. auto. }
    destruct Hstep as (c1 & l1 & E & Hc1 & Hle & Hl1). rewrite E in H.
    unfold bind at 1 in H.
    destruct ((if Nat.ltb i 4 then time_sleep 1.0%float else ret tt) s1)
      as [[[[]|e] s2]|] eqn:Hs.
    + destruct (IH _ _ _ _ _ _ _ _ H Hc1 Hl1) as (c' & l' & -> & Hc' & Hle' & Hl').
      exists c', l'. repeat split; auto. lia.
    + destruct (Nat.ltb i 4); inversion Hs.
    + destruct (Nat.ltb i 4); inversion Hs.
Qed.

(** X17. The HC-SR04 test of [test_sensor.py] counts what it collects:
    when its five turns have finished, without an exception whatever the
    hardware does, [success_count] is the number of entries of
    [distances], at most five, and every distance collected lies in
    [2, 400]. *)
Theorem hcsr04_test_counts (fuel : nat) (world : nat -> hardware)
    (st : state) (out : result (nat * list float)) (st' : state) :
  hcsr04_test fuel world st = Some (out, st') ->
  exists success_count distances,
    out = Val (success_count, distances)
    /\ success_count = List.length distances
    /\ success_count <= 5
    /\ Forall in_range distances.
Proof.
  unfold hcsr04_test. intros H.
  destruct (hcsr04_turns_counts _ _ _ _ _ _ _ _ _ H eq_refl (Forall_nil _))
    as (c & l & -> & Hc & Hle & Hl).
  exists c, l. repeat split; auto.
Qed.

Lemma hcsr04_test_counts_witness :
  exists success_count distances,
    Val (5, [254.0; 254.0; 254.0; 254.0; 254.0]%float)
    = Val (success_count, distances)
    /\ success_count = List.length distances
    /\ success_count <= 5
    /\ Forall in_range distances.
Proof.
  eapply (hcsr04_test_counts 10 (fun _ => repeating_bench) initial_state).
  lazy. reflexivity.
Defined.
